(** * IGED core: intent classifier, capability registry, audit log, text path

    A shallow embedding of [core/command_parser.py], [agents/orchestrator.py],
    [core/memory_engine.py], the text-dispatch part of
    [core/voice_pipeline.py], the two callers of that path and the
    watchdog's check of the audit log, with the properties the
    specification states about them and further properties read off the
    code.

    Text.  A Python [str] is modelled by [string]; its 8-bit characters are
    read as the code points U+0000 to U+00FF, and the character tests of
    CPython ([str.isspace], [str.lower], the classes [\s], [\d], [\w] of
    [re]) are tabulated on that range.  Messages of the source that carry a
    symbol beyond that range are written with the symbol's UTF-8 bytes; no
    definition below looks inside them.

    Clock.  [datetime.now()] and [time.time()] are inputs: every operation
    that reads the clock takes the reading as an argument.

    Collaborators.  Handlers, plugins and the encryption manager are
    functions that return or raise; the files are a map from paths to
    texts; importing the module of an agent or of a plugin is a function
    of its name that gives the object constructed or raises.  The threads
    of the voice pipeline are outside this development: the text path is
    followed one call at a time, as are the two callers of
    [process_text_command], the route /api/execute of
    [admin_panel/web_admin.py] and the command entry of
    [ui/win_gui/main_window.py]. *)

From Stdlib Require Import List String Ascii Bool Arith NArith ZArith Lia.
From Stdlib Require Import DecimalString.
From Stdlib Require DecimalPos DecimalFacts.
From Stdlib Require Import Floats.PrimFloat Uint63.
Import ListNotations.

Local Open Scope string_scope.
Local Open Scope list_scope.

Set Implicit Arguments.

(* ================================================================= *)
(** ** Python exceptions *)

(** A computation either returns or raises; [Raise] carries [str(e)]. *)
Inductive result (A : Type) : Type :=
| Ok (a : A)
| Raise (msg : string).

Arguments Ok {A} a.
Arguments Raise {A} msg.

Definition bind {A B : Type} (m : result A) (f : A -> result B) : result B :=
  match m with
  | Ok a => f a
  | Raise e => Raise e
  end.

Notation "x <- m ;; k" := (bind m (fun x => k))
  (at level 61, m at next level, right associativity).

(* ================================================================= *)
(** ** Python [str] methods *)

Module PyStr.

Definition code (c : ascii) : N := N_of_ascii c.

Definition between (lo hi : N) (c : ascii) : bool :=
  (lo <=? code c)%N && (code c <=? hi)%N.

(** [str.isspace] for one character; also the class [\s]. *)
Definition isspace (c : ascii) : bool :=
  between 9 13 c || between 28 32 c || (code c =? 133)%N || (code c =? 160)%N.

(** [\d]: within Latin-1 the decimal digits are [0-9]. *)
Definition isdigit (c : ascii) : bool := between 48 57 c.

Definition isupper_ascii (c : ascii) : bool := between 65 90 c.
Definition islower_ascii (c : ascii) : bool := between 97 122 c.

(** [\w]: alphanumeric characters and the underscore. *)
Definition isword (c : ascii) : bool :=
  isdigit c || isupper_ascii c || islower_ascii c || (code c =? 95)%N
  || (code c =? 170)%N || between 178 179 c || (code c =? 181)%N
  || between 185 186 c || between 188 190 c
  || between 192 214 c || between 216 246 c || between 248 255 c.

(** [str.lower] for one character: [A-Z] and the accented capitals
    U+00C0..U+00DE (U+00D7 excepted) move up by 32. *)
Definition lower_char (c : ascii) : ascii :=
  if isupper_ascii c || between 192 214 c || between 216 222 c
  then ascii_of_N (code c + 32)
  else c.

Fixpoint lower (s : string) : string :=
  match s with
  | EmptyString => EmptyString
  | String c s' => String (lower_char c) (lower s')
  end.

Fixpoint lstrip (s : string) : string :=
  match s with
  | String c s' => if isspace c then lstrip s' else s
  | EmptyString => EmptyString
  end.

(** Removes trailing white space: a character is kept when something
    that is not white space follows it or it is not white space itself. *)
Fixpoint rstrip (s : string) : string :=
  match s with
  | EmptyString => EmptyString
  | String c s' =>
      match rstrip s' with
      | EmptyString => if isspace c then EmptyString else String c EmptyString
      | t => String c t
      end
  end.

(** [s.strip()] *)
Definition strip (s : string) : string := rstrip (lstrip s).

(** [s.startswith(p)] *)
Fixpoint startswith (p s : string) : bool :=
  match p, s with
  | EmptyString, _ => true
  | String a p', String b s' => Ascii.eqb a b && startswith p' s'
  | String _ _, EmptyString => false
  end.

(** [sub in s] *)
Fixpoint contains (sub s : string) : bool :=
  startswith sub s ||
  match s with
  | EmptyString => false
  | String _ s' => contains sub s'
  end.

(** [s.split()]: the maximal runs of characters that are not white space.
    [cur] holds the run being read, reversed. *)
Fixpoint split_aux (cur : list ascii) (s : string) : list string :=
  let flush := match cur with
               | [] => []
               | _ => [string_of_list_ascii (rev cur)]
               end in
  match s with
  | EmptyString => flush
  | String c s' =>
      if isspace c then flush ++ split_aux [] s'
      else split_aux (c :: cur) s'
  end.

Definition split (s : string) : list string := split_aux [] s.

(** [sep.join(l)] *)
Fixpoint join (sep : string) (l : list string) : string :=
  match l with
  | [] => ""
  | [x] => x
  | x :: rest => x ++ sep ++ join sep rest
  end.

(** [x in l] for a list or set of strings *)
Definition mem (x : string) (l : list string) : bool :=
  existsb (String.eqb x) l.

(** [int(s)] on a run of decimal digits. *)
Fixpoint int_acc (acc : Z) (s : string) : Z :=
  match s with
  | EmptyString => acc
  | String c s' => int_acc (10 * acc + (Z.of_N (code c) - 48)) s'
  end.

Definition int (s : string) : Z := int_acc 0 s.

(** The longest run of digits the interpreter converts: the default of
    [sys.int_max_str_digits] (CPython 3.11, and the security releases of
    the versions before it). *)
Definition int_max_str_digits : nat := 4300.

(** [str(n)] for a count *)
Definition str_of_nat (n : nat) : string :=
  NilZero.string_of_uint (Nat.to_uint n).

(** [int(s)] on a run of decimal digits, as the interpreter performs it:
    a run longer than the limit raises [ValueError] with this message. *)
Definition int_of_digits (s : string) : result Z :=
  if Nat.ltb int_max_str_digits (String.length s)
  then Raise ("Exceeds the limit (" ++ str_of_nat int_max_str_digits
              ++ " digits) for integer string conversion: value has "
              ++ str_of_nat (String.length s)
              ++ " digits; use sys.set_int_max_str_digits() to increase the limit")
  else Ok (int s).

(** Letters that have a case: [A-Z], [a-z], U+00AA, U+00B5, U+00BA and
    the accented letters. *)
Definition iscased (c : ascii) : bool :=
  isupper_ascii c || islower_ascii c
  || (code c =? 170)%N || (code c =? 181)%N || (code c =? 186)%N
  || between 192 214 c || between 216 246 c || between 248 255 c.

(** The title form of one character: [a-z] and the accented small
    letters U+00E0..U+00FE (U+00F7 excepted) move down by 32.  The title
    forms of U+00B5, U+00DF and U+00FF lie beyond U+00FF; these three
    letters are left as they are. *)
Definition title_char (c : ascii) : ascii :=
  if islower_ascii c || between 224 246 c || between 248 254 c
  then ascii_of_N (code c - 32)
  else c.

(** [s.title()]: a letter that follows a letter is lowered, any other
    character takes its title form. *)
Fixpoint title_aux (previous_is_cased : bool) (s : string) : string :=
  match s with
  | EmptyString => EmptyString
  | String c s' =>
      String (if previous_is_cased then lower_char c else title_char c)
             (title_aux (iscased c) s')
  end.

Definition title (s : string) : string := title_aux false s.

End PyStr.

(* ================================================================= *)
(** ** The fragment of Python's [re] that the classifier uses *)

Module Re.

(** Patterns.  [Grp] is the capturing group; no pattern of the source has
    more than one.  Every character class of the source is closed under
    change of case, so [re.IGNORECASE] bears on literals only. *)
Inductive regex : Type :=
| Eps
| Lit (c : ascii)
| Cls (p : ascii -> bool)
| Cat (r1 r2 : regex)
| Alt (r1 r2 : regex)
| Star (r : regex)
| Grp (r : regex)
| Bnd.

(** A continuation receives the character just before the position, the
    text that remains, and the text captured so far. *)
Definition cont (A : Type) : Type :=
  option ascii -> string -> option string -> option A.

Definition word_at (c : option ascii) : bool :=
  match c with
  | Some a => PyStr.isword a
  | None => false
  end.

Definition head (s : string) : option ascii :=
  match s with
  | EmptyString => None
  | String c _ => Some c
  end.

Definition lit_matches (ic : bool) (c t : ascii) : bool :=
  if ic then Ascii.eqb (PyStr.lower_char t) (PyStr.lower_char c)
  else Ascii.eqb t c.

(** Backtracking matcher: alternatives in order, repetition greedy.  An
    iteration of [Star] that consumes nothing ends the repetition. *)
Fixpoint run {A : Type} (ic : bool) (r : regex) (prev : option ascii)
  (s : string) (cap : option string) (k : cont A) {struct r} : option A :=
  match r with
  | Eps => k prev s cap
  | Lit c =>
      match s with
      | String t s' => if lit_matches ic c t then k (Some t) s' cap else None
      | EmptyString => None
      end
  | Cls p =>
      match s with
      | String t s' => if p t then k (Some t) s' cap else None
      | EmptyString => None
      end
  | Cat r1 r2 =>
      run ic r1 prev s cap (fun prev' s' cap' => run ic r2 prev' s' cap' k)
  | Alt r1 r2 =>
      match run ic r1 prev s cap k with
      | Some x => Some x
      | None => run ic r2 prev s cap k
      end
  | Star r1 =>
      (fix loop (n : nat) (prev : option ascii) (s : string)
           (cap : option string) {struct n} : option A :=
         match n with
         | O => k prev s cap
         | S n' =>
             match run ic r1 prev s cap
                     (fun prev' s' cap' =>
                        if Nat.ltb (String.length s') (String.length s)
                        then loop n' prev' s' cap'
                        else None) with
             | Some x => Some x
             | None => k prev s cap
             end
         end) (String.length s) prev s cap
  | Grp r1 =>
      run ic r1 prev s cap
        (fun prev' s' _ =>
           k prev' s' (Some (substring 0 (String.length s - String.length s') s)))
  | Bnd =>
      if xorb (word_at prev) (word_at (head s)) then k prev s cap else None
  end.

(** A match object: [group(0)], and [group(1)] when the group took part. *)
Record match_obj : Type := MkMatch {
  group0 : string;
  group1 : option string
}.

(** The first position, from the left, where the pattern matches; also
    yields the last character matched and the text after the match. *)
Fixpoint scan (ic : bool) (r : regex) (prev : option ascii) (s : string)
  : option (match_obj * option ascii * string) :=
  match run ic r prev s None (fun p s' c => Some (p, s', c)) with
  | Some (p, s', c) =>
      Some (MkMatch (substring 0 (String.length s - String.length s') s) c, p, s')
  | None =>
      match s with
      | EmptyString => None
      | String c s' => scan ic r (Some c) s'
      end
  end.

(** [re.search(pattern, text, flags)] *)
Definition search (ic : bool) (r : regex) (s : string) : option match_obj :=
  match scan ic r None s with
  | Some (m, _, _) => Some m
  | None => None
  end.

Fixpoint has_group (r : regex) : bool :=
  match r with
  | Grp _ => true
  | Cat r1 r2 | Alt r1 r2 => has_group r1 || has_group r2
  | Star r1 => has_group r1
  | _ => false
  end.

(** Successive matches, none overlapping.  After a match of the empty
    string the scan resumes one character further. *)
Fixpoint finditer (fuel : nat) (ic : bool) (r : regex) (prev : option ascii)
  (s : string) : list match_obj :=
  match fuel with
  | O => []
  | S fuel' =>
      match scan ic r prev s with
      | None => []
      | Some (m, p, s') =>
          match group0 m, s' with
          | EmptyString, EmptyString => [m]
          | EmptyString, String c s'' => m :: finditer fuel' ic r (Some c) s''
          | _, _ => m :: finditer fuel' ic r p s'
          end
      end
  end.

(** [re.findall(pattern, text)]: the groups when the pattern has one,
    the whole matches otherwise. *)
Definition findall (r : regex) (s : string) : list string :=
  map (fun m => if has_group r
                then match group1 m with Some g => g | None => "" end
                else group0 m)
      (finditer (S (String.length s)) false r None s).

(** *** Pattern syntax *)

Fixpoint lit (s : string) : regex :=
  match s with
  | EmptyString => Eps
  | String c EmptyString => Lit c
  | String c s' => Cat (Lit c) (lit s')
  end.

Definition never : regex := Cls (fun _ => false).

Fixpoint seq (l : list regex) : regex :=
  match l with
  | [] => Eps
  | [r] => r
  | r :: l' => Cat r (seq l')
  end.

Fixpoint alt (l : list regex) : regex :=
  match l with
  | [] => never
  | [r] => r
  | r :: l' => Alt r (alt l')
  end.

(** [(?:w1|w2|...)] *)
Definition words (l : list string) : regex := alt (map lit l).

(** [r?], [r+], [r{n}], [r{lo,hi}] *)
Definition opt (r : regex) : regex := Alt r Eps.
Definition plus (r : regex) : regex := Cat r (Star r).

Fixpoint times (n : nat) (r : regex) : regex :=
  match n with
  | O => Eps
  | S n' => Cat r (times n' r)
  end.

Fixpoint upto (n : nat) (r : regex) : regex :=
  match n with
  | O => Eps
  | S n' => opt (Cat r (upto n' r))
  end.

Definition range (lo hi : nat) (r : regex) : regex :=
  Cat (times lo r) (upto (hi - lo) r).

(** [\s], [\s+], [\d], [.] *)
Definition ws : regex := Cls PyStr.isspace.
Definition sp : regex := plus ws.
Definition digit : regex := Cls PyStr.isdigit.
Definition dot : regex := Cls (fun c => negb (Ascii.eqb c "010"%char)).

End Re.

(* ================================================================= *)
(** ** core/command_parser.py *)

Module CommandParser.

Import Re.

(** Values stored under [parameters]: lists of matches, flags, integers. *)
Inductive pvalue : Type :=
| PList (l : list string)
| PBool (b : bool)
| PInt (n : Z).

(** The dictionary [parse_command] returns; [error] is present only in
    the dictionary built by [_create_error_command].  [parameters] keeps
    the insertion order of the Python dictionary. *)
Record Command : Type := MkCommand {
  original_text : string;
  command_type : string;
  agent : string;
  target : string;
  parameters : list (string * pvalue);
  error : option string;
  confidence : float;
  timestamp : string
}.

Definition code_words : list string :=
  ["flask"; "web"; "python"; "script"; "api"; "rest"; "html"; "website"].

(** [self.command_patterns], in the order the dictionary lists them. *)
Definition command_patterns : list (string * list regex) :=
  [ ("codegen",
     [ seq [words ["generate"; "create"; "make"; "build"]; sp;
            opt (seq [lit "a"; sp]); words code_words];
       seq [words ["write"; "code"]; sp;
            opt (seq [lit "a"; sp]); words code_words];
       seq [words ["develop"; "program"]; sp;
            opt (seq [lit "a"; sp]); words code_words] ]);
    ("secops",
     [ seq [words ["scan"; "check"; "test"; "audit"]; sp;
            opt (seq [lit "for"; sp]);
            words ["vulnerabilities"; "security"; "ports"; "network"]];
       seq [words ["security"; "penetration"; "vulnerability"]; sp;
            words ["scan"; "test"; "audit"]];
       seq [words ["port"; "network"]; sp; words ["scan"; "check"; "test"]];
       seq [words ["web"; "http"; "https"]; sp;
            words ["security"; "vulnerability"]; sp; words ["scan"; "check"]] ]);
    ("advanced_secops",
     [ seq [words ["penetrate"; "hack"; "exploit"; "breach"]; sp;
            words ["into"; "to"; "the"]; sp];
       seq [words ["advanced"; "deep"; "comprehensive"]; sp;
            words ["penetration"; "security"; "hacking"]];
       seq [alt [seq [lit "zero"; opt dot; lit "day"]; lit "exploit";
                 lit "vulnerability"]; sp;
            words ["scan"; "test"; "attack"]];
       seq [words ["persistent"; "backdoor"; "covert"]; sp;
            words ["access"; "connection"; "control"]] ]);
    ("network_intelligence",
     [ seq [words ["monitor"; "surveillance"; "intercept"]; sp;
            words ["network"; "traffic"; "communication"]];
       seq [words ["capture"; "analyze"; "decode"]; sp;
            words ["packets"; "traffic"; "protocols"]];
       seq [words ["device"; "inventory"; "discovery"]; sp;
            words ["network"; "devices"; "systems"]];
       seq [words ["intelligence"; "reconnaissance"; "gathering"]; sp;
            words ["network"; "system"]] ]);
    ("remote_control",
     [ seq [words ["connect"; "establish"; "control"]; sp;
            words ["remote"; "to"; "connection"]];
       seq [words ["execute"; "run"; "command"]; sp;
            words ["remote"; "on"; "system"]];
       seq [words ["deploy"; "payload"; "backdoor"]; sp;
            words ["to"; "on"; "system"]];
       seq [words ["monitor"; "surveillance"]; sp;
            words ["remote"; "system"; "device"]] ]);
    ("dataminer",
     [ seq [words ["analyze"; "process"; "mine"; "extract"]; sp;
            words ["data"; "dataset"; "file"]];
       seq [words ["data"; "statistical"]; sp;
            words ["analysis"; "processing"; "mining"]];
       seq [words ["visualize"; "plot"; "chart"]; sp;
            words ["data"; "dataset"]];
       seq [words ["generate"; "create"]; sp;
            words ["statistics"; "stats"; "report"]; sp;
            words ["for"; "from"]] ]) ].

(** [self.parameter_patterns] *)

(** The double quote (code 34) and the apostrophe. *)
Definition is_quote (c : ascii) : bool :=
  (PyStr.code c =? 34)%N || Ascii.eqb c "'"%char.

Definition quote : regex := Cls is_quote.
Definition not_quote : regex := Cls (fun c => negb (is_quote c)).

Definition pattern_file_path : regex :=
  seq [quote;
       Grp (seq [Star not_quote; lit ".";
                 words ["csv"; "xlsx"; "xls"; "json"; "txt"; "py"; "html";
                        "js"; "css"]]);
       quote].

Definition pattern_url : regex :=
  seq [lit "http"; opt (lit "s"); lit "://";
       plus (Cls (fun c => negb (PyStr.isspace c)))].

Definition pattern_ip_address : regex :=
  seq [Bnd; times 3 (seq [range 1 3 digit; lit "."]); range 1 3 digit; Bnd].

(** [[a-zA-Z0-9.-]] and [[a-zA-Z0-9._-]] *)
Definition host_char (c : ascii) : bool :=
  PyStr.islower_ascii c || PyStr.isupper_ascii c || PyStr.isdigit c
  || Ascii.eqb c "."%char || Ascii.eqb c "-"%char.

Definition target_char (c : ascii) : bool :=
  PyStr.islower_ascii c || PyStr.isupper_ascii c || PyStr.isdigit c
  || Ascii.eqb c "."%char || Ascii.eqb c "_"%char || Ascii.eqb c "-"%char.

Definition pattern_hostname : regex :=
  seq [words ["scan"; "check"; "test"]; sp; opt (seq [lit "the"; sp]);
       Grp (plus (Cls host_char))].

Definition pattern_target : regex :=
  seq [words ["for"; "on"; "at"]; sp; Grp (plus (Cls target_char))].


Definition matches (ic : bool) (r : regex) (s : string) : bool :=
  match search ic r s with
  | Some _ => true
  | None => false
  end.

Definition _get_command_type (text agent : string) : string :=
  let has w := PyStr.contains w text in
  if String.eqb agent "codegen" then
    if has "flask" || has "web" then "generate_web_app"
    else if has "python" || has "script" then "generate_script"
    else if has "api" || has "rest" then "generate_api"
    else if has "html" || has "website" then "generate_website"
    else "generate_code"
  else if String.eqb agent "secops" then
    if has "port" then "port_scan"
    else if has "network" then "network_scan"
    else if has "web" || has "http" then "web_security_scan"
    else "security_scan"
  else if String.eqb agent "advanced_secops" then
    if has "penetrate" || has "hack" then "penetration_test"
    else if has "exploit" then "exploit_target"
    else if has "persistent" || has "backdoor" then "establish_persistence"
    else "advanced_security_scan"
  else if String.eqb agent "network_intelligence" then
    if has "monitor" || has "surveillance" then "network_monitoring"
    else if has "intercept" || has "capture" then "packet_interception"
    else if has "analyze" || has "intelligence" then "traffic_analysis"
    else if has "device" || has "inventory" then "device_discovery"
    else "comprehensive_intelligence"
  else if String.eqb agent "remote_control" then
    if has "connect" || has "establish" then "establish_connection"
    else if has "control" || has "command" then "execute_remote_command"
    else if has "monitor" || has "surveillance" then "remote_monitoring"
    else if has "payload" || has "deploy" then "deploy_payload"
    else "remote_system_control"
  else if String.eqb agent "dataminer" then
    if has "analyze" then "analyze_data"
    else if has "extract" || has "mine" then "extract_data"
    else if has "visualize" || has "plot" then "visualize_data"
    else if has "statistics" || has "stats" then "generate_statistics"
    else "process_data"
  else "execute".

(** The first agent, in dictionary order, one of whose patterns is found
    in the lowered text; returns [(command_type, agent)]. *)
Definition _identify_command_type (text : string) : string * string :=
  let text_lower := PyStr.lower text in
  match find (fun ap => existsb (fun p => matches true p text_lower) (snd ap))
             command_patterns with
  | Some (agent, _) => (_get_command_type text_lower agent, agent)
  | None => ("general", "orchestrator")
  end.

Definition skip_words : list string :=
  ["generate"; "create"; "make"; "build"; "scan"; "check"; "test";
   "analyze"; "process"].

Definition group_1 (m : match_obj) : string :=
  match group1 m with
  | Some g => g
  | None => EmptyString
  end.

Definition _extract_target (text command_type : string) : string :=
  match search false pattern_file_path text with
  | Some file_match => group_1 file_match
  | None =>
  match search false pattern_url text with
  | Some url_match => group0 url_match
  | None =>
  match search false pattern_ip_address text with
  | Some ip_match => group0 ip_match
  | None =>
  match search true pattern_hostname text with
  | Some hostname_match => group_1 hostname_match
  | None =>
  match search true pattern_target text with
  | Some target_match => group_1 target_match
  | None =>
      let words := PyStr.split text in
      if Nat.ltb 2 (List.length words) then
        let target_words :=
          filter (fun word => negb (PyStr.mem (PyStr.lower word) skip_words))
                 (skipn 2 words) in
        match target_words with
        | [] => text
        | _ => PyStr.join " " (firstn 3 target_words)
        end
      else text
  end end end end end.

Definition boolean_flags : list (string * regex) :=
  [ ("verbose", seq [Bnd; words ["verbose"; "detailed"; "full"]; Bnd]);
    ("quiet", seq [Bnd; words ["quiet"; "silent"; "minimal"]; Bnd]);
    ("force", seq [Bnd; words ["force"; "overwrite"]; Bnd]);
    ("recursive", seq [Bnd; words ["recursive"; "recursively"]; Bnd]) ].

Definition numeric_patterns : list (string * regex) :=
  [ ("timeout", seq [words ["timeout"; "time"]; sp; Grp (plus digit)]);
    ("limit", seq [words ["limit"; "max"; "maximum"]; sp; Grp (plus digit)]);
    ("port", seq [lit "port"; sp; Grp (plus digit)]) ].

(** A key is set only when its list of matches is not empty. *)
Definition set_if_any (key : string) (found : list string)
  : list (string * pvalue) :=
  match found with
  | [] => []
  | _ => [(key, PList found)]
  end.

(** The loop over the numeric patterns: [int] raises on a number of too
    many digits, and the loop ends there. *)
Fixpoint numeric_parameters (text : string) (patterns : list (string * regex))
  : result (list (string * pvalue)) :=
  match patterns with
  | [] => Ok []
  | (key, pattern) :: rest =>
      match search true pattern text with
      | Some m =>
          n <- PyStr.int_of_digits (group_1 m) ;;
          found <- numeric_parameters text rest ;;
          Ok ((key, PInt n) :: found)
      | None => numeric_parameters text rest
      end
  end.

(** Lists of matches, then flags, then numbers; only the conversion of a
    number can raise. *)
Definition _extract_parameters (text : string)
  : result (list (string * pvalue)) :=
  let parameters :=
    set_if_any "files" (findall pattern_file_path text)
    ++ set_if_any "urls" (findall pattern_url text)
    ++ set_if_any "ip_addresses" (findall pattern_ip_address text)
    ++ flat_map (fun fp => if matches true (snd fp) text
                           then [(fst fp, PBool true)] else [])
                boolean_flags in
  numbers <- numeric_parameters text numeric_patterns ;;
  Ok (parameters ++ numbers).

Definition specific_keywords : list string :=
  ["generate"; "create"; "scan"; "analyze"; "process"].

#[local] Set Warnings "-inexact-float".

(** [min(confidence, 1.0)] returns its first argument unless the second
    is strictly smaller. *)
Definition _calculate_confidence (text command_type : string) : float :=
  let confidence := 0.5%float in
  let confidence :=
    if Nat.ltb 3 (List.length (PyStr.split text))
    then (confidence + 0.2)%float else confidence in
  let confidence :=
    if existsb (fun keyword => PyStr.contains keyword (PyStr.lower text))
               specific_keywords
    then (confidence + 0.2)%float else confidence in
  let confidence :=
    if matches false pattern_file_path text || matches false pattern_url text
    then (confidence + 0.1)%float else confidence in
  if (1.0 <? confidence)%float then 1.0%float else confidence.

Definition _create_error_command (now error_message : string) : Command :=
  {| original_text := EmptyString;
     command_type := "error";
     agent := "unknown";
     target := EmptyString;
     parameters := [];
     error := Some error_message;
     confidence := 0.0%float;
     timestamp := now |}.

(** [now] is the value of [datetime.now().isoformat()].  Within the
    [try] block only [_extract_parameters] can raise on a [str]; the
    handler then returns the error command made from the message of the
    exception. *)
Definition parse_command (now text : string) : Command :=
  let text := PyStr.strip text in
  match text with
  | EmptyString => _create_error_command now "Empty command"
  | _ =>
      let '(command_type, agent) := _identify_command_type text in
      let target := _extract_target text command_type in
      match _extract_parameters text with
      | Ok parameters =>
          {| original_text := text;
             command_type := command_type;
             agent := agent;
             target := target;
             parameters := parameters;
             error := None;
             confidence := _calculate_confidence text command_type;
             timestamp := now |}
      | Raise e =>
          _create_error_command now ("Parsing error: " ++ e)%string
      end
  end.

(** The command types listed for each agent, in the order of the source. *)
Definition get_supported_commands : list (string * list string) :=
  [ ("codegen",
     ["generate_web_app"; "generate_script"; "generate_api";
      "generate_website"; "generate_code"]);
    ("secops",
     ["security_scan"; "port_scan"; "network_scan"; "web_security_scan"]);
    ("advanced_secops",
     ["penetration_test"; "exploit_target"; "establish_persistence";
      "advanced_security_scan"; "zero_day_scanning"]);
    ("network_intelligence",
     ["network_monitoring"; "packet_interception"; "traffic_analysis";
      "device_discovery"; "comprehensive_intelligence"]);
    ("remote_control",
     ["establish_connection"; "execute_remote_command"; "remote_monitoring";
      "deploy_payload"; "remote_system_control"]);
    ("dataminer",
     ["analyze_data"; "extract_data"; "visualize_data"; "generate_statistics";
      "process_data"]) ].

(** The three required keys are fields of [Command], hence present. *)
Definition validate_command (command : Command) : bool :=
  negb (String.eqb (command_type command) "error").

(** [parameters.get(key)] *)
Fixpoint param (key : string) (ps : list (string * pvalue)) : option pvalue :=
  match ps with
  | [] => None
  | (k, v) :: rest => if String.eqb k key then Some v else param key rest
  end.

End CommandParser.


(* ================================================================= *)
(** ** Python values and the [json] module *)

Module Json.

(** The values the audit log holds and [json] can write and read back:
    [None], booleans, integers, strings, lists, and dictionaries with
    string keys in insertion order.  Floats are left out. *)
#[local] Set Warnings "-register-all".

Inductive value : Type :=
| VNone
| VBool (b : bool)
| VInt (z : Z)
| VStr (s : string)
| VList (l : list value)
| VDict (kv : list (string * value)).

(** [d.get(key)] *)
Fixpoint dict_get (key : string) (kv : list (string * value)) : option value :=
  match kv with
  | [] => None
  | (k, v) :: rest => if String.eqb k key then Some v else dict_get key rest
  end.

(** [d[key] = v]: a key already present keeps its place. *)
Fixpoint dict_set (key : string) (v : value) (kv : list (string * value))
  : list (string * value) :=
  match kv with
  | [] => [(key, v)]
  | (k, x) :: rest =>
      if String.eqb k key then (k, v) :: rest
      else (k, x) :: dict_set key v rest
  end.

(** [dict(pairs)] *)
Definition dict_of_pairs (pairs : list (string * value)) : list (string * value) :=
  fold_left (fun d kv => dict_set (fst kv) (snd kv) d) pairs [].

Definition dquote : ascii := ascii_of_N 34.
Definition backslash : ascii := ascii_of_N 92.
Definition newline : ascii := ascii_of_N 10.

(** *** Writing: [json.dumps(obj, indent=2, ensure_ascii=False)] *)

Definition hex_digit (n : N) : ascii :=
  if (n <? 10)%N then ascii_of_N (48 + n) else ascii_of_N (87 + n).

(** The replacement of one character inside a string: the quote, the
    backslash and the control characters below U+0020 are escaped. *)
Definition escape_char (c : ascii) : string :=
  let n := PyStr.code c in
  if (n =? 34)%N then String backslash (String dquote EmptyString)
  else if (n =? 92)%N then String backslash (String backslash EmptyString)
  else if (n =? 10)%N then String backslash "n"
  else if (n =? 13)%N then String backslash "r"
  else if (n =? 9)%N then String backslash "t"
  else if (n =? 8)%N then String backslash "b"
  else if (n =? 12)%N then String backslash "f"
  else if (n <? 32)%N then
    String backslash
      (String "u" (String "0" (String "0"
         (String (hex_digit (n / 16)) (String (hex_digit (n mod 16)) EmptyString)))))
  else String c EmptyString.

Fixpoint escape (s : string) : string :=
  match s with
  | EmptyString => EmptyString
  | String c s' => escape_char c ++ escape s'
  end.

Definition encode_basestring (s : string) : string :=
  String dquote (escape s ++ String dquote EmptyString).

(** [int.__repr__] *)
Definition repr_int (z : Z) : string :=
  DecimalString.NilZero.string_of_int (Z.to_int z).

Fixpoint spaces (level : nat) : string :=
  match level with
  | O => EmptyString
  | S n => "  " ++ spaces n
  end.

Definition newline_indent (level : nat) : string :=
  String newline (spaces level).

Fixpoint encode (level : nat) (v : value) {struct v} : string :=
  match v with
  | VNone => "null"
  | VBool true => "true"
  | VBool false => "false"
  | VInt z => repr_int z
  | VStr s => encode_basestring s
  | VList [] => "[]"
  | VList (x :: xs) =>
      "[" ++ newline_indent (S level) ++ encode (S level) x
      ++ (fix items (l : list value) : string :=
            match l with
            | [] => (newline_indent level ++ "]")%string
            | y :: l' =>
                ("," ++ newline_indent (S level) ++ encode (S level) y
                 ++ items l')%string
            end) xs
  | VDict [] => "{}"
  | VDict ((k, x) :: kvs) =>
      "{" ++ newline_indent (S level)
      ++ encode_basestring k ++ ": " ++ encode (S level) x
      ++ (fix items (l : list (string * value)) : string :=
            match l with
            | [] => (newline_indent level ++ "}")%string
            | (k', y) :: l' =>
                ("," ++ newline_indent (S level)
                 ++ encode_basestring k' ++ ": " ++ encode (S level) y
                 ++ items l')%string
            end) kvs
  end.

Definition dumps (v : value) : string := encode 0 v.

(** *** Reading: [json.loads] *)

Definition is_ws (c : ascii) : bool :=
  let n := PyStr.code c in
  (n =? 32)%N || (n =? 9)%N || (n =? 10)%N || (n =? 13)%N.

Fixpoint skip_ws (s : string) : string :=
  match s with
  | String c s' => if is_ws c then skip_ws s' else s
  | EmptyString => EmptyString
  end.

Definition hex_value (c : ascii) : option N :=
  let n := PyStr.code c in
  if PyStr.isdigit c then Some (n - 48)%N
  else if PyStr.between 97 102 c then Some (n - 87)%N
  else if PyStr.between 65 70 c then Some (n - 55)%N
  else None.

Definition hex4 (a b c d : ascii) : option N :=
  match hex_value a, hex_value b, hex_value c, hex_value d with
  | Some x, Some y, Some z, Some w => Some (((x * 16 + y) * 16 + z) * 16 + w)%N
  | _, _, _, _ => None
  end.

(** The character a backslash followed by [e] stands for. *)
Definition unescape (e : ascii) : option ascii :=
  let n := PyStr.code e in
  if (n =? 34)%N || (n =? 92)%N || (n =? 47)%N then Some e
  else if Ascii.eqb e "b" then Some (ascii_of_N 8)
  else if Ascii.eqb e "f" then Some (ascii_of_N 12)
  else if Ascii.eqb e "n" then Some (ascii_of_N 10)
  else if Ascii.eqb e "r" then Some (ascii_of_N 13)
  else if Ascii.eqb e "t" then Some (ascii_of_N 9)
  else None.

Definition cons_char (c : ascii) (r : option (string * string))
  : option (string * string) :=
  match r with
  | Some (t, rest) => Some (String c t, rest)
  | None => None
  end.

(** Reads a string from just after its opening quote; yields the string
    and the text after the closing quote.  A raw control character is an
    error; so is, here, an escape of a code point above U+00FF. *)
Fixpoint scanstring (s : string) : option (string * string) :=
  match s with
  | EmptyString => None
  | String c s' =>
      if (PyStr.code c =? 34)%N then Some (EmptyString, s')
      else if (PyStr.code c =? 92)%N then
        match s' with
        | EmptyString => None
        | String e s'' =>
            if Ascii.eqb e "u" then
              match s'' with
              | String h1 (String h2 (String h3 (String h4 rest))) =>
                  match hex4 h1 h2 h3 h4 with
                  | Some n =>
                      if (n <? 256)%N
                      then cons_char (ascii_of_N n) (scanstring rest)
                      else None
                  | None => None
                  end
              | _ => None
              end
            else
              match unescape e with
              | Some ch => cons_char ch (scanstring s'')
              | None => None
              end
        end
      else if (PyStr.code c <? 32)%N then None
      else cons_char c (scanstring s')
  end.

Fixpoint span_digits (s : string) : string * string :=
  match s with
  | String c s' =>
      if PyStr.isdigit c
      then let '(ds, rest) := span_digits s' in (String c ds, rest)
      else (EmptyString, s)
  | EmptyString => (EmptyString, EmptyString)
  end.

Definition starts_with_digit (s : string) : bool :=
  match s with
  | String d _ => PyStr.isdigit d
  | EmptyString => false
  end.

(** A fraction or an exponent follows: the number is a float. *)
Definition float_tail (s : string) : bool :=
  match s with
  | String c r =>
      if Ascii.eqb c "." then starts_with_digit r
      else if Ascii.eqb c "e" || Ascii.eqb c "E" then
        match r with
        | String sgn r' =>
            if Ascii.eqb sgn "+" || Ascii.eqb sgn "-"
            then starts_with_digit r'
            else PyStr.isdigit sgn
        | EmptyString => false
        end
      else false
  | EmptyString => false
  end.

(** The integer read, unless the number goes on as a float: floats are
    not among the values of this model and their text is refused. *)
Definition finish_number (neg : bool) (ds rest : string) : option (value * string) :=
  if float_tail rest then None
  else Some (VInt (if neg then - PyStr.int ds else PyStr.int ds), rest).

(** [0] alone, or a run of digits that does not start with [0]. *)
Definition read_digits (neg : bool) (body : string) : option (value * string) :=
  match body with
  | String c rest =>
      if Ascii.eqb c "0" then finish_number neg "0" rest
      else if PyStr.isdigit c then
        let '(ds, rest') := span_digits body in finish_number neg ds rest'
      else None
  | EmptyString => None
  end.

(** An optional sign, then the digits. *)
Definition parse_number (s : string) : option (value * string) :=
  match s with
  | String c s' =>
      if Ascii.eqb c "-" then read_digits true s' else read_digits false s
  | EmptyString => None
  end.

Section Composite.

(** The scanner for the values nested one level down. *)
Variable scan : string -> option (value * string).

(** The items of an array, from the first character of an item; [n]
    bounds the number of items. *)
Fixpoint array_items (n : nat) (acc : list value) (s : string)
  : option (value * string) :=
  match n with
  | O => None
  | S n' =>
      match scan s with
      | Some (v, rest) =>
          match skip_ws rest with
          | String c r =>
              if Ascii.eqb c "]" then Some (VList (rev (v :: acc)), r)
              else if Ascii.eqb c "," then array_items n' (v :: acc) (skip_ws r)
              else None
          | EmptyString => None
          end
      | None => None
      end
  end.

(** The members of an object, from the opening quote of a key. *)
Fixpoint object_items (n : nat) (acc : list (string * value)) (s : string)
  : option (value * string) :=
  match n with
  | O => None
  | S n' =>
      match s with
      | String q s1 =>
          if (PyStr.code q =? 34)%N then
            match scanstring s1 with
            | Some (key, s2) =>
                match skip_ws s2 with
                | String colon s3 =>
                    if Ascii.eqb colon ":" then
                      match scan (skip_ws s3) with
                      | Some (v, s4) =>
                          match skip_ws s4 with
                          | String c s5 =>
                              if Ascii.eqb c "}" then
                                Some (VDict (dict_of_pairs (rev ((key, v) :: acc))), s5)
                              else if Ascii.eqb c "," then
                                object_items n' ((key, v) :: acc) (skip_ws s5)
                              else None
                          | EmptyString => None
                          end
                      | None => None
                      end
                    else None
                | EmptyString => None
                end
            | None => None
            end
          else None
      | EmptyString => None
      end
  end.

End Composite.

(** The text after the prefix [word], when [s] starts with it. *)
Fixpoint after_prefix (word s : string) : option string :=
  match word, s with
  | EmptyString, _ => Some s
  | String a word', String b s' =>
      if Ascii.eqb a b then after_prefix word' s' else None
  | String _ _, EmptyString => None
  end.

Definition literal (word : string) (v : value) (s : string)
  : option (value * string) :=
  match after_prefix word s with
  | Some rest => Some (v, rest)
  | None => None
  end.

(** One value, from its first character; [fuel] bounds the nesting. *)
Fixpoint scan_once (fuel : nat) (s : string) : option (value * string) :=
  match fuel with
  | O => None
  | S fuel' =>
      match s with
      | EmptyString => None
      | String c s' =>
          if (PyStr.code c =? 34)%N then
            match scanstring s' with
            | Some (t, rest) => Some (VStr t, rest)
            | None => None
            end
          else if Ascii.eqb c "{" then
            match skip_ws s' with
            | String c' r =>
                if Ascii.eqb c' "}" then Some (VDict [], r)
                else object_items (scan_once fuel') (String.length s) []
                                  (skip_ws s')
            | EmptyString => None
            end
          else if Ascii.eqb c "[" then
            match skip_ws s' with
            | String c' r =>
                if Ascii.eqb c' "]" then Some (VList [], r)
                else array_items (scan_once fuel') (String.length s) []
                                 (skip_ws s')
            | EmptyString => None
            end
          else if Ascii.eqb c "n" then literal "null" VNone s
          else if Ascii.eqb c "t" then literal "true" (VBool true) s
          else if Ascii.eqb c "f" then literal "false" (VBool false) s
          else parse_number s
      end
  end.

(** [json.loads(s)]: one value, white space around it, nothing else.
    The nesting of a text is below its length. *)
Definition loads (s : string) : result value :=
  match scan_once (String.length s) (skip_ws s) with
  | Some (v, rest) =>
      match skip_ws rest with
      | EmptyString => Ok v
      | _ => Raise "JSONDecodeError"
      end
  | None => Raise "JSONDecodeError"
  end.

End Json.

(* ================================================================= *)
(** ** core/memory_engine.py *)

Module MemoryEngine.

Import Json.

(** The encryption manager, a collaborator: either call may raise. *)
Record Encryption : Type := MkEncryption {
  encrypt : string -> result string;
  decrypt : string -> result string
}.

(** Files: what each path holds, and the paths that cannot be opened
    for writing. *)
Record Files : Type := MkFiles {
  contents : list (string * string);
  read_only : list string
}.

Fixpoint file_set (path data : string) (l : list (string * string))
  : list (string * string) :=
  match l with
  | [] => [(path, data)]
  | (p, d) :: rest =>
      if String.eqb p path then (p, data) :: rest
      else (p, d) :: file_set path data rest
  end.

Fixpoint file_get (path : string) (l : list (string * string)) : option string :=
  match l with
  | [] => None
  | (p, d) :: rest => if String.eqb p path then Some d else file_get path rest
  end.

(** [open(path, 'w')] followed by one [write] *)
Definition write_file (path data : string) (fs : Files) : result Files :=
  if PyStr.mem path (read_only fs) then Raise "PermissionError"
  else Ok (MkFiles (file_set path data (contents fs)) (read_only fs)).

(** [open(path, 'r')] followed by [read] *)
Definition read_file (path : string) (fs : Files) : result string :=
  match file_get path (contents fs) with
  | Some d => Ok d
  | None => Raise "FileNotFoundError"
  end.

(** The engine: the list [self.memory_data] and the files it writes. *)
Record MemoryEngine : Type := MkMemory {
  encryption : Encryption;
  memory_data : list value;
  files : Files
}.

(** One reading of the clock: [int(time.time() * 1000)] and
    [datetime.now().isoformat()]. *)
Record Clock : Type := MkClock {
  now_ms : Z;
  now_iso : string
}.

Definition memory_file : string := "memory/memory_log.json".

Definition set_data (m : MemoryEngine) (data : list value) : MemoryEngine :=
  MkMemory (encryption m) data (files m).

(** A failure to encrypt or to write is logged and otherwise ignored. *)
Definition save_memory (m : MemoryEngine) : MemoryEngine :=
  let data := dumps (VList (memory_data m)) in
  match encrypt (encryption m) data with
  | Ok encrypted_data =>
      match write_file memory_file encrypted_data (files m) with
      | Ok fs => MkMemory (encryption m) (memory_data m) fs
      | Raise _ => m
      end
  | Raise _ => m
  end.

(** What [self.memory_data] is set to at start-up.  The file is read when
    it exists and is not blank: first as an encrypted text, then, when
    decrypting or decoding that fails, as plain JSON; when this fails too
    the log is empty.  The value read is returned as it is, a list or
    not. *)
Definition load_memory (e : Encryption) (fs : Files) : value :=
  match file_get memory_file (contents fs) with
  | Some data =>
      match PyStr.strip data with
      | EmptyString => VList []
      | _ =>
          match (decrypted <- decrypt e data ;; loads decrypted) with
          | Ok v => v
          | Raise _ =>
              match loads data with
              | Ok v => v
              | Raise _ => VList []
              end
          end
      end
  | None => VList []
  end.

Definition generate_id (now : Clock) (m : MemoryEngine) : string :=
  "mem_" ++ repr_int (now_ms now) ++ "_"
  ++ repr_int (Z.of_nat (List.length (memory_data m))).

(** [metadata or {}] *)
Definition metadata_or_empty (metadata : option (list (string * value))) : value :=
  match metadata with
  | Some kv => VDict kv
  | None => VDict []
  end.

(** Returns the id of the new entry.  Nothing in the body raises, so the
    [None] of the handler is never returned. *)
Definition add_entry (now : Clock) (m : MemoryEngine)
  (command result_text agent : string) (success : bool)
  (metadata : option (list (string * value)))
  : option string * MemoryEngine :=
  let id := generate_id now m in
  let entry :=
    VDict [ ("id", VStr id);
            ("timestamp", VStr (now_iso now));
            ("command", VStr command);
            ("result", VStr result_text);
            ("agent", VStr agent);
            ("success", VBool success);
            ("metadata", metadata_or_empty metadata) ] in
  (Some id, save_memory (set_data m (memory_data m ++ [entry]))).

(** [entry.get(key, default)]; an entry that is not a dictionary has no
    [get]. *)
Definition get (entry : value) (key : string) (default : value) : result value :=
  match entry with
  | VDict kv =>
      Ok (match dict_get key kv with
          | Some v => v
          | None => default
          end)
  | _ => Raise "AttributeError"
  end.

(** [v.lower()] *)
Definition lower_of (v : value) : result string :=
  match v with
  | VStr s => Ok (PyStr.lower s)
  | _ => Raise "AttributeError"
  end.

(** [entry.get(key) == s] for a string [s] *)
Definition is_str (v : value) (s : string) : bool :=
  match v with
  | VStr t => String.eqb t s
  | _ => false
  end.

Fixpoint get_entry_loop (entry_id : string) (l : list value)
  : result (option value) :=
  match l with
  | [] => Ok None
  | entry :: rest =>
      id <- get entry "id" VNone ;;
      if is_str id entry_id then Ok (Some entry)
      else get_entry_loop entry_id rest
  end.

Definition get_entry (m : MemoryEngine) (entry_id : string)
  : result (option value) :=
  get_entry_loop entry_id (memory_data m).

(** The condition of the loop of [search_entries]; the result text is
    looked at only when the command text does not hold the query. *)
Definition entry_matches (query_lower : string) (entry : value) : result bool :=
  c <- get entry "command" (VStr EmptyString) ;;
  cl <- lower_of c ;;
  if PyStr.contains query_lower cl then Ok true
  else
    r <- get entry "result" (VStr EmptyString) ;;
    rl <- lower_of r ;;
    Ok (PyStr.contains query_lower rl).

(** The loop over [reversed(self.memory_data)]: the test against
    [limit] comes after the entry has been appended. *)
Fixpoint search_loop (query_lower : string) (limit : Z)
  (entries results : list value) : result (list value) :=
  match entries with
  | [] => Ok results
  | entry :: rest =>
      hit <- entry_matches query_lower entry ;;
      if hit : bool then
        let results := results ++ [entry] in
        if (limit <=? Z.of_nat (List.length results))%Z then Ok results
        else search_loop query_lower limit rest results
      else search_loop query_lower limit rest results
  end.

Definition search_entries (m : MemoryEngine) (query : string) (limit : Z)
  : result (list value) :=
  search_loop (PyStr.lower query) limit (rev (memory_data m)) [].

(** [l[start:]] *)
Definition slice_from {A : Type} (start : Z) (l : list A) : list A :=
  let len := Z.of_nat (List.length l) in
  let start := if (start <? 0)%Z then Z.max (start + len) 0
               else Z.min start len in
  skipn (Z.to_nat start) l.

Definition get_recent_entries (m : MemoryEngine) (limit : Z) : list value :=
  match memory_data m with
  | [] => []
  | _ => slice_from (- limit) (memory_data m)
  end.

Fixpoint by_agent_loop (agent : string) (limit : Z)
  (entries results : list value) : result (list value) :=
  match entries with
  | [] => Ok results
  | entry :: rest =>
      a <- get entry "agent" VNone ;;
      if is_str a agent then
        let results := results ++ [entry] in
        if (limit <=? Z.of_nat (List.length results))%Z then Ok results
        else by_agent_loop agent limit rest results
      else by_agent_loop agent limit rest results
  end.

Definition get_entries_by_agent (m : MemoryEngine) (agent : string) (limit : Z)
  : result (list value) :=
  by_agent_loop agent limit (rev (memory_data m)) [].

(** The list without its first entry whose id is [entry_id], if any. *)
Fixpoint delete_loop (entry_id : string) (l : list value)
  : result (option (list value)) :=
  match l with
  | [] => Ok None
  | entry :: rest =>
      id <- get entry "id" VNone ;;
      if is_str id entry_id then Ok (Some rest)
      else
        r <- delete_loop entry_id rest ;;
        Ok (match r with
            | Some rest' => Some (entry :: rest')
            | None => None
            end)
  end.

Definition delete_entry (m : MemoryEngine) (entry_id : string)
  : bool * MemoryEngine :=
  match delete_loop entry_id (memory_data m) with
  | Ok (Some data) => (true, save_memory (set_data m data))
  | Ok None => (false, m)
  | Raise _ => (false, m)
  end.

Definition clear_memory (m : MemoryEngine) : MemoryEngine :=
  save_memory (set_data m []).

(** Writes the serialized list as it is: [self.encryption] is not used. *)
Definition export_memory (m : MemoryEngine) (file_path : string)
  : bool * MemoryEngine :=
  match write_file file_path (dumps (VList (memory_data m))) (files m) with
  | Ok fs => (true, MkMemory (encryption m) (memory_data m) fs)
  | Raise _ => (false, m)
  end.

Definition import_memory (m : MemoryEngine) (file_path : string)
  : bool * MemoryEngine :=
  match (text <- read_file file_path (files m) ;; loads text) with
  | Ok (VList imported_data) =>
      (true, save_memory (set_data m (memory_data m ++ imported_data)))
  | Ok _ => (false, m)
  | Raise _ => (false, m)
  end.

(** Truth value of a Python object *)
Definition truthy (v : value) : bool :=
  match v with
  | VNone => false
  | VBool b => b
  | VInt z => negb (z =? 0)%Z
  | VStr s => negb (String.eqb s EmptyString)
  | VList l => negb (Nat.eqb (List.length l) 0)
  | VDict kv => negb (Nat.eqb (List.length kv) 0)
  end.

(** Dictionary keys: lists and dictionaries cannot be hashed; [True] and
    [False] are the keys [1] and [0]. *)
Inductive key : Type :=
| KNone
| KInt (z : Z)
| KStr (s : string).

Definition hash_key (v : value) : result key :=
  match v with
  | VNone => Ok KNone
  | VBool b => Ok (KInt (if b then 1 else 0))
  | VInt z => Ok (KInt z)
  | VStr s => Ok (KStr s)
  | VList _ | VDict _ => Raise "TypeError"
  end.

Definition key_eqb (a b : key) : bool :=
  match a, b with
  | KNone, KNone => true
  | KInt x, KInt y => (x =? y)%Z
  | KStr s, KStr t => String.eqb s t
  | _, _ => false
  end.

(** [agents[agent] = agents.get(agent, 0) + 1] *)
Fixpoint count_up (k : key) (v : value) (agents : list (key * value * nat))
  : list (key * value * nat) :=
  match agents with
  | [] => [(k, v, 1)]
  | (k', v', n) :: rest =>
      if key_eqb k' k then (k', v', S n) :: rest
      else (k', v', n) :: count_up k v rest
  end.

Fixpoint count_agents (l : list value) (agents : list (key * value * nat))
  : result (list (key * value * nat)) :=
  match l with
  | [] => Ok agents
  | entry :: rest =>
      agent <- get entry "agent" (VStr "unknown") ;;
      k <- hash_key agent ;;
      count_agents rest (count_up k agent agents)
  end.

(** [sum(1 for entry in self.memory_data if entry.get('success', False))] *)
Fixpoint count_success (l : list value) : result nat :=
  match l with
  | [] => Ok 0
  | entry :: rest =>
      s <- get entry "success" (VBool false) ;;
      n <- count_success rest ;;
      Ok (if truthy s then S n else n)
  end.

(** [entry['timestamp']] *)
Definition subscript_timestamp (entry : value) : result value :=
  match entry with
  | VDict kv =>
      match dict_get "timestamp" kv with
      | Some v => Ok v
      | None => Raise "KeyError"
      end
  | _ => Raise "TypeError"
  end.

(** [float(n)] for a count; exact below 2^53. *)
Definition float_of_nat (n : nat) : float :=
  PrimFloat.of_uint63 (Uint63.of_Z (Z.of_nat n)).

(** [a / b] on two counts *)
Definition truediv (a b : nat) : result float :=
  match b with
  | O => Raise "ZeroDivisionError"
  | _ => Ok (float_of_nat a / float_of_nat b)%float
  end.

Record Statistics : Type := MkStatistics {
  total_entries : nat;
  successful_entries : nat;
  failed_entries : nat;
  success_rate : float;
  agents : list (key * value * nat);
  oldest_entry : option value;
  newest_entry : option value
}.

Definition statistics_of (data : list value) : result Statistics :=
  let total_entries := List.length data in
  successful_entries <- count_success data ;;
  let failed_entries := total_entries - successful_entries in
  agents <- count_agents data [] ;;
  success_rate <-
    (if Nat.ltb 0 total_entries
     then q <- truediv successful_entries total_entries ;; Ok (q * 100)%float
     else Ok 0%float) ;;
  oldest <-
    match data with
    | [] => Ok None
    | first :: _ => t <- subscript_timestamp first ;; Ok (Some t)
    end ;;
  newest <-
    match rev data with
    | [] => Ok None
    | last :: _ => t <- subscript_timestamp last ;; Ok (Some t)
    end ;;
  Ok (MkStatistics total_entries successful_entries failed_entries
        success_rate agents oldest newest).

(** [None] stands for the empty dictionary returned when the body raises. *)
Definition get_statistics (m : MemoryEngine) : option Statistics :=
  match statistics_of (memory_data m) with
  | Ok s => Some s
  | Raise _ => None
  end.

End MemoryEngine.

(* ================================================================= *)
(** ** agents/orchestrator.py *)

Module Orchestrator.

Import CommandParser.

(** [agent.execute(target, parameters)] and [plugin.run(target)]: either
    returns a string or raises. *)
Definition handler : Type := string -> list (string * pvalue) -> result string.
Definition plugin : Type := string -> result string.

(** The dictionaries [self.agents] and [self.plugins], in insertion
    order, as discovery left them. *)
Record Orchestrator : Type := MkOrchestrator {
  agents : list (string * handler);
  plugins : list (string * plugin)
}.

(** What a dispatch touches: the handler or the plugin that is run. *)
Inductive event : Type :=
| AgentExecuted (name target : string) (parameters : list (string * pvalue))
| PluginRun (name target : string).

Fixpoint lookup {A : Type} (name : string) (l : list (string * A)) : option A :=
  match l with
  | [] => None
  | (k, v) :: rest => if String.eqb k name then Some v else lookup name rest
  end.

Definition _plugin_matches (plugin_name command_type target : string) : bool :=
  let target_lower := PyStr.lower target in
  let plugin_lower := PyStr.lower plugin_name in
  PyStr.contains plugin_lower target_lower
  || PyStr.contains target_lower plugin_lower
  || PyStr.contains command_type plugin_lower.

(** The handler of the [try] block: the exception becomes a string. *)
Definition caught (r : result string) : string :=
  match r with
  | Ok text => text
  | Raise e => "❌ Execution error: " ++ e
  end.

(** Returns the result string, and the handlers and plugins that were
    run on the way. *)
Definition execute_command (o : Orchestrator) (command : Command)
  : string * list event :=
  let command_type := command_type command in
  let target := target command in
  let agent := agent command in
  let parameters := parameters command in
  match lookup agent (agents o) with
  | Some h =>
      (caught (h target parameters), [AgentExecuted agent target parameters])
  | None =>
      match find (fun np => _plugin_matches (fst np) command_type target)
                 (plugins o) with
      | Some (plugin_name, p) =>
          (caught (p target), [PluginRun plugin_name target])
      | None =>
          match lookup "general" (agents o) with
          | Some h =>
              (caught (h target parameters),
               [AgentExecuted "general" target parameters])
          | None =>
              (("❌ No agent or plugin found to handle: " ++ command_type)%string,
               [])
          end
      end
  end.

(** *** Discovery *)

(** [d[name] = v] on a dictionary kept in insertion order *)
Fixpoint assign {A : Type} (name : string) (v : A) (l : list (string * A))
  : list (string * A) :=
  match l with
  | [] => [(name, v)]
  | (k, x) :: rest =>
      if String.eqb k name then (k, v) :: rest
      else (k, x) :: assign name v rest
  end.

(** [del d[name]], run only when the key is there: what is left holds
    every other key. *)
Definition remove {A : Type} (name : string) (l : list (string * A))
  : list (string * A) :=
  filter (fun kv => negb (String.eqb (fst kv) name)) l.

(** Importing a module, taking the class of the given name in it and
    constructing it with the memory engine: the handler, or what was
    raised on the way. *)
Definition agent_loader : Type := string -> string -> result handler.

(** A failure is logged; the registry is then left as it was. *)
Definition _load_agent (load : agent_loader) (o : Orchestrator)
  (agent_name class_name : string) : Orchestrator :=
  let module_path := ("agents." ++ agent_name ++ ".main")%string in
  match load module_path class_name with
  | Ok agent_instance =>
      MkOrchestrator (assign agent_name agent_instance (agents o)) (plugins o)
  | Raise _ => o
  end.

Definition load_agents (load : agent_loader) (o : Orchestrator) : Orchestrator :=
  let o := _load_agent load o "codegen_agent" "CodeGenAgent" in
  let o := _load_agent load o "secops" "SecOpsAgent" in
  let o := _load_agent load o "data_miner" "DataMinerAgent" in
  let o := _load_agent load o "advanced_secops" "AdvancedSecOpsAgent" in
  let o := _load_agent load o "network_intelligence" "NetworkIntelligenceAgent" in
  _load_agent load o "remote_control" "RemoteControlAgent".

(** Executing the module of a plugin file and constructing its class
    [Plugin]: [Ok None] when no import specification can be made for the
    file or the module has no such class. *)
Definition plugin_loader : Type := string -> result (option plugin).

(** [name.rfind(".")] *)
Fixpoint rfind_dot (name : string) : option nat :=
  match name with
  | EmptyString => None
  | String c name' =>
      match rfind_dot name' with
      | Some i => Some (S i)
      | None => if Ascii.eqb c "."%char then Some 0 else None
      end
  end.

(** [plugin_file.stem]: the file name without its last suffix; a dot
    that opens or closes the name does not start a suffix. *)
Definition stem (name : string) : string :=
  match rfind_dot name with
  | Some i =>
      if Nat.ltb 0 i && Nat.ltb i (String.length name - 1)
      then substring 0 i name
      else name
  | None => name
  end.

(** [plugin_file] is the name of the file within the plugins directory. *)
Definition _load_plugin (load : plugin_loader) (o : Orchestrator)
  (plugin_file : string) : Orchestrator :=
  let plugin_name := stem plugin_file in
  match load plugin_file with
  | Ok (Some plugin_instance) =>
      MkOrchestrator (agents o) (assign plugin_name plugin_instance (plugins o))
  | Ok None => o
  | Raise _ => o
  end.

(** [files] lists what [plugins_dir.glob("*.py")] yields, in its order. *)
Definition load_plugins (load : plugin_loader) (files : list string)
  (o : Orchestrator) : Orchestrator :=
  fold_left (fun o plugin_file =>
               if String.eqb plugin_file "__init__.py" then o
               else _load_plugin load o plugin_file)
            files o.

(** [Orchestrator(memory_engine)] *)
Definition init (aload : agent_loader) (pload : plugin_loader)
  (files : list string) : Orchestrator :=
  load_plugins pload files (load_agents aload (MkOrchestrator [] [])).

Definition get_available_agents (o : Orchestrator) : list string :=
  map fst (agents o).

Definition get_available_plugins (o : Orchestrator) : list string :=
  map fst (plugins o).

(** Nothing in the body raises, so [True] is returned in every case. *)
Definition reload_agent (load : agent_loader) (o : Orchestrator)
  (agent_name : string) : bool * Orchestrator :=
  let o := MkOrchestrator (remove agent_name (agents o)) (plugins o) in
  (true,
   _load_agent load o agent_name (PyStr.title agent_name ++ "Agent")%string).

Definition reload_plugins (load : plugin_loader) (files : list string)
  (o : Orchestrator) : bool * Orchestrator :=
  (true, load_plugins load files (MkOrchestrator (agents o) [])).

End Orchestrator.

(* ================================================================= *)
(** ** core/voice_pipeline.py: the text path *)

Module VoicePipeline.

Import CommandParser.

(** An item of [self.callback_queue] *)
Record Callback : Type := MkCallback {
  cb_type : string;
  cb_text : string;
  cb_result : string;
  cb_command : Command
}.

(** The pipeline with its three collaborators.  [dispatched] is not a
    field of the source: it records, in order, each command handed to
    [execute_command]. *)
Record VoicePipeline : Type := MkPipeline {
  orchestrator : Orchestrator.Orchestrator;
  memory : MemoryEngine.MemoryEngine;
  callback_queue : list Callback;
  dispatched : list Command
}.

(** Parse, dispatch, log, notify.  [parse_command], [execute_command]
    and [add_entry] each catch what is raised inside them and putting on
    an unbounded queue does not raise, so the handler of this [try]
    block, which logs with [success=False], is not entered. *)
Definition _handle_transcription (now : MemoryEngine.Clock)
  (p : VoicePipeline) (text : string) : VoicePipeline :=
  let command := parse_command (MemoryEngine.now_iso now) text in
  let '(result, _) := Orchestrator.execute_command (orchestrator p) command in
  let '(_, memory') :=
    MemoryEngine.add_entry now (memory p) text result (agent command) true None in
  MkPipeline (orchestrator p) memory'
    (callback_queue p ++ [MkCallback "voice_command" text result command])
    (dispatched p ++ [command]).

(** [text] is what the transcriber returned for the utterance. *)
Definition _process_audio (now : MemoryEngine.Clock) (p : VoicePipeline)
  (text : string) : VoicePipeline :=
  match text, PyStr.strip text with
  | String _ _, String _ _ => _handle_transcription now p text
  | _, _ => p
  end.

Definition process_text_command (now : MemoryEngine.Clock) (p : VoicePipeline)
  (text : string) : VoicePipeline :=
  _handle_transcription now p text.

End VoicePipeline.

(* ================================================================= *)
(** ** admin_panel/web_admin.py: the route /api/execute *)

Module WebAdminPanel.

Import Json.

(** What the route returns: the status code and the JSON body. *)
Record Response : Type := MkResponse {
  status : nat;
  body : value
}.

Definition error_body (msg : string) : value := VDict [("error", VStr msg)].

(** [v.strip()] *)
Definition strip_of (v : value) : result string :=
  match v with
  | VStr s => Ok (PyStr.strip s)
  | _ => Raise "AttributeError"
  end.

(** [data] is what [request.get_json()] gives, a value or an exception;
    [voice] is [self.components['voice']] when that key is present.  The
    body of the answer to an exception carries the text the model keeps
    for that exception. *)
Definition execute_command (now : MemoryEngine.Clock)
  (voice : option VoicePipeline.VoicePipeline) (data : result value)
  : Response * option VoicePipeline.VoicePipeline :=
  match (data <- data ;;
         command <- MemoryEngine.get data "command" (VStr EmptyString) ;;
         strip_of command) with
  | Ok EmptyString => (MkResponse 400 (error_body "No command provided"), voice)
  | Ok command =>
      match voice with
      | Some p =>
          (MkResponse 200 (VDict [("message", VStr "Command executed");
                                  ("command", VStr command)]),
           Some (VoicePipeline.process_text_command now p command))
      | None =>
          (MkResponse 500 (error_body "Voice pipeline not available"), voice)
      end
  | Raise e => (MkResponse 500 (error_body e), voice)
  end.

End WebAdminPanel.

(* ================================================================= *)
(** ** ui/win_gui/main_window.py: the command entry *)

Module MainWindow.

(** [entry] is the text of the command entry; the lines are those given
    to [log_output].  (The source also empties the entry widget.)  The
    thread the source starts for the command is followed to its end
    before the next command is looked at. *)
Definition execute_command (now : MemoryEngine.Clock)
  (voice : option VoicePipeline.VoicePipeline) (entry : string)
  : list string * option VoicePipeline.VoicePipeline :=
  match PyStr.strip entry with
  | EmptyString => ([], voice)
  | command =>
      let executing := ("🎯 Executing: " ++ command)%string in
      match voice with
      | Some p =>
          ([executing],
           Some (VoicePipeline.process_text_command now p command))
      | None => ([executing; "❌ Voice pipeline not available"], voice)
      end
  end.

End MainWindow.

(* ================================================================= *)
(** ** watchdog.py: the check of the audit log *)

Module Watchdog.

(** The warnings [_check_memory_usage] logs, each with the number it
    reports. *)
Inductive warning : Type :=
| LargeMemoryDatabase (total_entries : nat)
| LowSuccessRate (success_rate : float).

(** [memory] is [self.components['memory']] when that key is present.
    The defaults of the two [stats.get] serve when [get_statistics] fell
    back on the empty dictionary. *)
Definition _check_memory_usage (memory : option MemoryEngine.MemoryEngine)
  : list warning :=
  match memory with
  | Some m =>
      let stats := MemoryEngine.get_statistics m in
      let total_entries :=
        match stats with
        | Some s => MemoryEngine.total_entries s
        | None => 0
        end in
      let success_rate :=
        match stats with
        | Some s => MemoryEngine.success_rate s
        | None => 100%float
        end in
      (if (10000 <? Z.of_nat total_entries)%Z
       then [LargeMemoryDatabase total_entries] else [])
      ++ (if (success_rate <? 80)%float
          then [LowSuccessRate success_rate] else [])
  | None => []
  end.

End Watchdog.

(* ================================================================= *)
(** * Vocabulary of the properties *)

Import CommandParser Json MemoryEngine Orchestrator VoicePipeline.

(** ** Texts written by [json] *)

(** What may follow a number: neither one more digit nor the start of a
    fraction or an exponent. *)
Definition ends_number (rest : string) : bool :=
  negb (starts_with_digit rest) && negb (float_tail rest).

(** A text that opens a value: its first character is neither white
    space nor a closing bracket. *)
Definition starts_value (s : string) : bool :=
  match s with
  | String c _ =>
      negb (is_ws c) && negb (Ascii.eqb c "]") && negb (Ascii.eqb c "}")
  | EmptyString => false
  end.

(** A text that opens a number: a sign or a digit. *)
Definition starts_number (s : string) : bool :=
  match s with
  | String c _ => Ascii.eqb c "-" || PyStr.isdigit c
  | EmptyString => false
  end.

(** No string occurs twice. *)
Fixpoint distinct (l : list string) : bool :=
  match l with
  | [] => true
  | x :: rest => negb (PyStr.mem x rest) && distinct rest
  end.

(** The values that stand for Python objects: the keys of a dictionary
    are distinct, at every depth. *)
Fixpoint well_formed (v : value) : bool :=
  match v with
  | VList l => forallb well_formed l
  | VDict kv =>
      distinct (map fst kv) && forallb (fun p => well_formed (snd p)) kv
  | _ => true
  end.

(** Depth of nesting, 1 for a value that holds no other. *)
Fixpoint height (v : value) : nat :=
  match v with
  | VList l => S (fold_right (fun x => Nat.max (height x)) 0 l)
  | VDict kv => S (fold_right (fun p => Nat.max (height (snd p))) 0 kv)
  | _ => 1
  end.

Section Tails.

Variable level : nat.

(** What [encode] writes after the first item of a list, and after the
    first member of a dictionary. *)
Fixpoint list_tail (l : list value) : string :=
  match l with
  | [] => newline_indent level ++ "]"
  | y :: l' =>
      "," ++ newline_indent (S level) ++ encode (S level) y ++ list_tail l'
  end.

Fixpoint dict_tail (l : list (string * value)) : string :=
  match l with
  | [] => newline_indent level ++ "}"
  | (k, y) :: l' =>
      "," ++ newline_indent (S level)
      ++ encode_basestring k ++ ": " ++ encode (S level) y ++ dict_tail l'
  end.

End Tails.

(** A text without underscore, as the digits of a number are. *)
Definition numeric (s : string) : Prop :=
  forall a b, s <> (a ++ String "_" b)%string.

(** Reading back one value written at any depth, whatever follows it,
    provided what follows cannot be taken for more of a number. *)
Definition reads_back (fuel : nat) (v : value) : Prop :=
  forall level rest,
    ends_number rest = true ->
    scan_once fuel (encode level v ++ rest) = Some (v, rest).

(** ** Scenarios *)

(** A number the parameters take from the text is short enough for
    [int]: the digits of the first match of the pattern, if there is
    one, are at most 4300. *)
Definition number_fits (text : string) (np : string * Re.regex) : bool :=
  match Re.search true (snd np) text with
  | Some m => Nat.leb (String.length (group_1 m)) PyStr.int_max_str_digits
  | None => true
  end.

(** No number after timeout, time, limit, max, maximum or port is too
    long for [int]. *)
Definition numbers_within_limit (text : string) : bool :=
  forallb (number_fits text) numeric_patterns.

(** The word "port" followed by a number of 4301 digits. *)
Definition long_port_text : string :=
  "port " ++ string_of_list_ascii (repeat "1"%char 4301).

(** The text of the scenario of the specification. *)
Definition scan_scenario : string := "scan 192.168.1.5 for vulnerabilities".

(** plugins/hello_world.py *)
Definition hello_world : plugin :=
  fun input_text =>
    Ok ("Hello, " ++ input_text
        ++ "! This is the Hello World plugin speaking.")%string.

(** Two stand-ins for the "secops" handler: one answers, one raises. *)
Definition stub_secops : handler := fun _ _ => Ok "OK:scan-done".

(** A registry whose plugin "port_scan" matches the command type of a
    port scan, next to the built-in handler "secops". *)
Definition registry_with_rival : Orchestrator :=
  MkOrchestrator [("secops", stub_secops)]
                 [("hello_world", hello_world); ("port_scan", hello_world)].

Definition failing_secops : handler := fun _ _ => Raise "boom".

Definition failing_registry : Orchestrator :=
  MkOrchestrator [("secops", failing_secops)] [].

(** The registry with the sample plugin of the repository alone. *)
Definition sample_registry : Orchestrator :=
  MkOrchestrator [] [("hello_world", hello_world)].

(** The operations that change the log, each with the clock reading it
    takes. *)
Inductive log_op : Type :=
| OpAdd (now : Clock) (command result_text agent : string) (success : bool)
| OpDelete (entry_id : string)
| OpClear.

(** Runs the operations in order; returns the ids [add_entry] returned. *)
Fixpoint run_ops (m : MemoryEngine) (ops : list log_op)
  : list (option string) * MemoryEngine :=
  match ops with
  | [] => ([], m)
  | OpAdd now command result_text agent success :: rest =>
      let '(id, m') := add_entry now m command result_text agent success None in
      let '(ids, m'') := run_ops m' rest in
      (id :: ids, m'')
  | OpDelete entry_id :: rest => run_ops (snd (delete_entry m entry_id)) rest
  | OpClear :: rest => run_ops (clear_memory m) rest
  end.

(** The sequences that only add entries. *)
Definition adds_only (ops : list log_op) : bool :=
  forallb (fun op => match op with OpAdd _ _ _ _ _ => true | _ => false end) ops.

(** An encryption manager that leaves the text as it is. *)
Definition plain_encryption : Encryption :=
  MkEncryption (fun s => Ok s) (fun s => Ok s).

(** A fresh engine: no entry, no file. *)
Definition empty_log : MemoryEngine :=
  MkMemory plain_encryption [] (MkFiles [] []).

(** One reading of the clock, shared by the scenarios. *)
Definition noon : Clock := MkClock 1700000000000 "2023-11-14T22:13:20".

(** Three entries added within the millisecond 1700000000000, the first
    one deleted before the third is added. *)
Definition burst_with_delete : list log_op :=
  [ OpAdd noon "first" "ok" "secops" true;
    OpAdd noon "second" "ok" "secops" true;
    OpDelete "mem_1700000000000_0";
    OpAdd noon "third" "ok" "secops" true ].

(** The test of the search loop as a plain boolean, for entries on which
    it does not raise. *)
Definition hits (query_lower : string) (entry : value) : bool :=
  match entry_matches query_lower entry with
  | Ok b => b
  | Raise _ => false
  end.

(** The entries the search can look at: a dictionary whose command and
    result, where the test reads them, are strings. *)
Definition searchable (query_lower : string) (entry : value) : Prop :=
  exists b, entry_matches query_lower entry = Ok b.

(** A log of one entry whose command text holds "foo". *)
Definition one_foo_entry : MemoryEngine :=
  snd (add_entry noon empty_log "find foo" "done" "orchestrator" true None).

(** A log of two entries, the second with metadata and with a quote, a
    backslash and a line break in its result. *)
Definition two_entries : MemoryEngine :=
  let m := snd (add_entry noon empty_log "scan 10.0.0.1" "OK:scan-done"
                  "secops" true None) in
  snd (add_entry noon m "list files"
         (String Json.dquote
            (String Json.backslash (String Json.newline "done")))
         "orchestrator" false
         (Some [("tries", VInt 3); ("tags", VList [VStr "a"; VNone])])).

(** A pipeline that has not handled anything yet. *)
Definition idle_pipeline (o : Orchestrator) : VoicePipeline :=
  MkPipeline o empty_log [] [].

(** The test of the classifier's loop for one agent: one of its patterns
    is found in the lowered text. *)
Definition agent_matches (text_lower : string) (ap : string * list Re.regex)
  : bool :=
  existsb (fun p => matches true p text_lower) (snd ap).

(** What [parameters] holds under a key set from a list of matches. *)
Definition found_or_none (found : list string) : option pvalue :=
  match found with
  | [] => None
  | _ => Some (PList found)
  end.

(** A request that names a quoted file, a URL and an address. *)
Definition sample_request : string :=
  String "a" (String "n" (String "a" (String "l" (String "y" (String "z"
  (String "e" (String " " (String Json.dquote
  ("data.csv" ++ String Json.dquote " from http://x.org/a at 10.0.0.1"))))))))).

(** The agents [load_agents] asks for, each with the class it names. *)
Definition builtin_agents : list (string * string) :=
  [ ("codegen_agent", "CodeGenAgent");
    ("secops", "SecOpsAgent");
    ("data_miner", "DataMinerAgent");
    ("advanced_secops", "AdvancedSecOpsAgent");
    ("network_intelligence", "NetworkIntelligenceAgent");
    ("remote_control", "RemoteControlAgent") ].

(** The module [_load_agent] imports for an agent. *)
Definition module_of (agent_name : string) : string :=
  "agents." ++ agent_name ++ ".main".

(** The plugin, if any, that [execute_command] would pick for a command. *)
Definition matching_plugin (o : Orchestrator) (c : Command)
  : option (string * plugin) :=
  find (fun np => _plugin_matches (fst np) (command_type c) (target c))
       (plugins o).

(** What [execute_command] gives when no built-in handler is looked at. *)
Definition plugin_or_nothing (o : Orchestrator) (c : Command)
  : string * list event :=
  match matching_plugin o c with
  | Some (plugin_name, p) =>
      (caught (p (target c)), [PluginRun plugin_name (target c)])
  | None =>
      (("❌ No agent or plugin found to handle: " ++ command_type c)%string, [])
  end.

(** A loader that knows the module of "secops" alone. *)
Definition secops_only : agent_loader :=
  fun module_path class_name =>
    if String.eqb module_path "agents.secops.main"
       && String.eqb class_name "SecOpsAgent"
    then Ok stub_secops
    else Raise "No module named agents".

(** A loader for a plugins directory in which only hello_world.py
    loads. *)
Definition hello_only : plugin_loader :=
  fun plugin_file =>
    if String.eqb plugin_file "hello_world.py" then Ok (Some hello_world)
    else if String.eqb plugin_file "notes.py" then Ok None
    else Raise "SyntaxError".

(** The same directory seen by a loader for which __init__.py would
    load as a plugin. *)
Definition hello_with_init : plugin_loader :=
  fun plugin_file =>
    if String.eqb plugin_file "__init__.py" then Ok (Some hello_world)
    else hello_only plugin_file.

(** A plugins directory as [glob] may list it. *)
Definition sample_directory : list string :=
  ["broken.py"; "__init__.py"; "hello_world.py"; "notes.py"].

(** The entry [add_entry] appends. *)
Definition new_entry (now : Clock) (m : MemoryEngine)
  (command result_text agent : string) (success : bool)
  (metadata : option (list (string * value))) : value :=
  VDict [ ("id", VStr (generate_id now m));
          ("timestamp", VStr (now_iso now));
          ("command", VStr command);
          ("result", VStr result_text);
          ("agent", VStr agent);
          ("success", VBool success);
          ("metadata", metadata_or_empty metadata) ].

(** The tests of the loops over the log as plain booleans, for entries
    that are dictionaries. *)
Definition has_id (entry_id : string) (entry : value) : bool :=
  match get entry "id" VNone with
  | Ok v => is_str v entry_id
  | Raise _ => false
  end.

Definition has_agent (agent : string) (entry : value) : bool :=
  match get entry "agent" VNone with
  | Ok v => is_str v agent
  | Raise _ => false
  end.

Definition is_dict (entry : value) : bool :=
  match entry with
  | VDict _ => true
  | _ => false
  end.

(** An entry the statistics can count: a dictionary with a timestamp
    whose agent, when it has one, can be a dictionary key. *)
Definition record_like (entry : value) : bool :=
  match entry with
  | VDict kv =>
      match dict_get "timestamp" kv with
      | Some _ => true
      | None => false
      end
      && match dict_get "agent" kv with
         | Some (VList _) | Some (VDict _) => false
         | _ => true
         end
  | _ => false
  end.

(** The sum of the counts of a dictionary of agents. *)
Definition counted (agents : list (key * value * nat)) : nat :=
  fold_right (fun a n => snd a + n) 0 agents.

(** An encryption manager whose two operations fail. *)
Definition broken_encryption : Encryption :=
  MkEncryption (fun _ => Raise "InvalidToken") (fun _ => Raise "InvalidToken").



Definition three_adds : list log_op :=
  [ OpAdd noon "first" "ok" "secops" true;
    OpAdd noon "second" "ok" "secops" true;
    OpAdd noon "third" "ok" "secops" false ].

(** A session of direct text entry: each text with the clock reading of
    its call. *)
Definition run_texts (p : VoicePipeline) (texts : list (Clock * string))
  : VoicePipeline :=
  fold_left (fun p nt => process_text_command (fst nt) p (snd nt)) texts p.

(** What the text path dispatches for a text. *)
Definition parsed (nt : Clock * string) : Command :=
  parse_command (now_iso (fst nt)) (snd nt).

(** An entry that counts as a success in the statistics. *)
Definition logged_success (entry : value) : bool :=
  match get entry "success" (VBool false) with
  | Ok v => truthy v
  | Raise _ => false
  end.

(** No error command has been handed to [execute_command]. *)
Definition no_error_dispatched (p : VoicePipeline) : Prop :=
  Forall (fun c => command_type c <> "error") (dispatched p).

(** The error command of a blank text has not been handed to
    [execute_command]. *)
Definition no_blank_dispatched (p : VoicePipeline) : Prop :=
  Forall (fun c => error c <> Some "Empty command") (dispatched p).


(** A session of three texts, one of them blank, one whose handler
    raises. *)
Definition sample_session : list (Clock * string) :=
  [ (noon, "port scan 10.0.0.1"); (noon, "   "); (noon, "hello there") ].



(** A log with an entry that is not a dictionary, as a damaged or
    foreign memory file may leave it. *)
Definition damaged_log : MemoryEngine :=
  MkMemory plain_encryption [VInt 3] (MkFiles [] []).

(* ================================================================= *)
(** * Properties *)

(** ** The intent classifier *)

Section Classifier.

Lemma get_command_type_not_error (text agent : string) :
  _get_command_type text agent <> "error".
Proof.
  unfold _get_command_type.
  repeat match goal with
         | |- context [if ?b then _ else _] => destruct b
         end; discriminate.
Qed.

Lemma identify_command_type_not_error (text : string) :
  fst (_identify_command_type text) <> "error".
Proof.
  unfold _identify_command_type.
  destruct (find _ command_patterns) as [[agent patterns]|]; simpl.
  - apply get_command_type_not_error.
  - discriminate.
Qed.

(** The eight sums the confidence can take all lie between 0 and 1. *)
Lemma calculate_confidence_bounds (text command_type : string) :
  (0 <=? _calculate_confidence text command_type)%float = true
  /\ (_calculate_confidence text command_type <=? 1)%float = true.
Proof.
  unfold _calculate_confidence.
  destruct (Nat.ltb 3 (List.length (PyStr.split text)));
    destruct (existsb _ specific_keywords);
    destruct (matches false pattern_file_path text
              || matches false pattern_url text);
    split; vm_compute; reflexivity.
Qed.

Lemma int_of_digits_fits (digits : string) :
  Nat.leb (String.length digits) PyStr.int_max_str_digits = true ->
  PyStr.int_of_digits digits = Ok (PyStr.int digits).
Proof.
  intros H. unfold PyStr.int_of_digits.
  apply Nat.leb_le in H.
  destruct (Nat.ltb_spec PyStr.int_max_str_digits (String.length digits));
    [lia|reflexivity].
Qed.

Lemma int_of_digits_too_long (digits : string) :
  Nat.leb (String.length digits) PyStr.int_max_str_digits = false ->
  exists e, PyStr.int_of_digits digits = Raise e.
Proof.
  intros H. unfold PyStr.int_of_digits.
  apply Nat.leb_gt in H.
  destruct (Nat.ltb_spec PyStr.int_max_str_digits (String.length digits));
    [eexists; reflexivity|lia].
Qed.

Lemma numeric_parameters_within (text : string)
  (patterns : list (string * Re.regex)) :
  forallb (number_fits text) patterns = true ->
  exists found,
    numeric_parameters text patterns = Ok found
    /\ incl (map fst found) (map fst patterns).
Proof.
  induction patterns as [|[key pattern] rest IH]; intros H.
  - exists []. split; [reflexivity|]. intros k Hk. exact Hk.
  - cbn [forallb] in H. apply andb_true_iff in H as [Hfit Hrest].
    destruct (IH Hrest) as [found [Hfound Hincl]].
    cbn [numeric_parameters]. unfold number_fits in Hfit. cbn [snd] in Hfit.
    destruct (Re.search true pattern text) as [m|].
    + rewrite (int_of_digits_fits _ Hfit), Hfound. cbn [bind].
      eexists. split; [reflexivity|].
      cbn [map fst]. intros k [<-|Hk]; [now left|right; now apply Hincl].
    + exists found. split; [exact Hfound|].
      cbn [map fst]. intros k Hk. right. now apply Hincl.
Qed.

Lemma numeric_parameters_beyond (text : string)
  (patterns : list (string * Re.regex)) :
  forallb (number_fits text) patterns = false ->
  exists e, numeric_parameters text patterns = Raise e.
Proof.
  induction patterns as [|[key pattern] rest IH]; intros H; [discriminate|].
  cbn [forallb] in H. cbn [numeric_parameters].
  unfold number_fits in H at 1. cbn [snd] in H.
  destruct (Re.search true pattern text) as [m|].
  - destruct (Nat.leb (String.length (group_1 m)) PyStr.int_max_str_digits)
      eqn:Hfit.
    + rewrite (int_of_digits_fits _ Hfit). cbn [bind].
      destruct (IH H) as [e ->]. eexists. reflexivity.
    + destruct (int_of_digits_too_long _ Hfit) as [e ->].
      eexists. reflexivity.
  - apply IH. exact H.
Qed.

Lemma extract_parameters_within (text : string) :
  numbers_within_limit text = true ->
  exists parameters, _extract_parameters text = Ok parameters.
Proof.
  intros H. unfold _extract_parameters.
  destruct (numeric_parameters_within text numeric_patterns H)
    as [found [-> _]].
  eexists. reflexivity.
Qed.

Lemma extract_parameters_beyond (text : string) :
  numbers_within_limit text = false ->
  exists e, _extract_parameters text = Raise e.
Proof.
  intros H. unfold _extract_parameters.
  destruct (numeric_parameters_beyond text numeric_patterns H) as [e ->].
  eexists. reflexivity.
Qed.

Lemma parse_command_nonblank (now text : string) :
  PyStr.strip text <> EmptyString ->
  numbers_within_limit (PyStr.strip text) = true ->
  let c := parse_command now text in
  command_type c <> "error"
  /\ (0 <=? confidence c)%float = true
  /\ (confidence c <=? 1)%float = true.
Proof.
  unfold parse_command.
  destruct (PyStr.strip text) as [|ch rest]; [intros H; now elim H|].
  intros _ Hfit.
  pose proof (identify_command_type_not_error (String ch rest)) as Hid.
  destruct (_identify_command_type (String ch rest)) as [ct ag].
  destruct (extract_parameters_within _ Hfit) as [parameters ->].
  simpl in *. split; [exact Hid|].
  apply calculate_confidence_bounds.
Qed.

Lemma parse_command_blank (now text : string) :
  PyStr.strip text = EmptyString ->
  parse_command now text = _create_error_command now "Empty command".
Proof.
  unfold parse_command. intros ->. reflexivity.
Qed.

Lemma parse_command_overlong (now text : string) :
  numbers_within_limit (PyStr.strip text) = false ->
  exists e,
    parse_command now text
    = _create_error_command now ("Parsing error: " ++ e)%string.
Proof.
  intros Hfit. unfold parse_command.
  destruct (PyStr.strip text) as [|ch rest]; [discriminate Hfit|].
  destruct (_identify_command_type (String ch rest)) as [ct ag].
  destruct (extract_parameters_beyond _ Hfit) as [e ->].
  exists e. reflexivity.
Qed.

(** C6, as the specification states it, fails: a text that is not blank
    is parsed into the error command when a number in it is too long for
    [int].  Here the text is "port" followed by 4301 digits; the handler
    of [parse_command] turns the [ValueError] into the error command. *)
Lemma long_number_parses_to_error :
  ~ (let c := parse_command "t0" long_port_text in
     (PyStr.strip long_port_text <> EmptyString ->
      command_type c <> "error"
      /\ (0 <=? confidence c)%float = true
      /\ (confidence c <=? 1)%float = true)
     /\ (PyStr.strip long_port_text = EmptyString ->
         command_type c = "error"
         /\ confidence c = 0%float
         /\ agent c = "unknown")).
Proof.
  cbv zeta. intros [H _].
  assert (Hn : PyStr.strip long_port_text <> EmptyString)
    by (vm_compute; discriminate).
  destruct (H Hn) as [Hne _]. apply Hne.
  destruct (parse_command_overlong "t0" long_port_text) as [e ->];
    [vm_compute|]; reflexivity.
Qed.

(** C6, amended.  A text that is not empty once trimmed and in which no
    number after timeout, time, limit, max, maximum or port has more than
    4300 digits is parsed into a command whose type is not "error" and
    whose confidence lies in [0,1]; an empty or blank text, and a text
    with such a number of more than 4300 digits, is parsed into the error
    command: type "error", confidence 0, agent "unknown". *)
Theorem parse_command_error_iff_blank_or_overlong (now text : string) :
  let c := parse_command now text in
  (PyStr.strip text <> EmptyString ->
   numbers_within_limit (PyStr.strip text) = true ->
   command_type c <> "error"
   /\ (0 <=? confidence c)%float = true
   /\ (confidence c <=? 1)%float = true)
  /\ (PyStr.strip text = EmptyString
      \/ numbers_within_limit (PyStr.strip text) = false ->
      command_type c = "error"
      /\ confidence c = 0%float
      /\ agent c = "unknown").
Proof.
  split.
  - apply parse_command_nonblank.
  - intros [H|H].
    + rewrite (parse_command_blank now text H). repeat split.
    + destruct (parse_command_overlong now text H) as [e ->]. repeat split.
Qed.

Lemma parse_command_error_iff_blank_or_overlong_witness :
  (PyStr.strip scan_scenario <> EmptyString
   /\ numbers_within_limit (PyStr.strip scan_scenario) = true
   /\ command_type (parse_command "t0" scan_scenario) <> "error"
   /\ (0 <=? confidence (parse_command "t0" scan_scenario))%float = true
   /\ (confidence (parse_command "t0" scan_scenario) <=? 1)%float = true)
  /\ (PyStr.strip "  " = EmptyString
      /\ command_type (parse_command "t0" "  ") = "error"
      /\ confidence (parse_command "t0" "  ") = 0%float
      /\ agent (parse_command "t0" "  ") = "unknown").
Proof.
  split.
  - assert (H : PyStr.strip scan_scenario <> EmptyString)
      by (vm_compute; discriminate).
    assert (H' : numbers_within_limit (PyStr.strip scan_scenario) = true)
      by (vm_compute; reflexivity).
    split; [exact H|]. split; [exact H'|].
    exact (proj1 (parse_command_error_iff_blank_or_overlong "t0" scan_scenario)
             H H').
  - split; [reflexivity|].
    exact (proj2 (parse_command_error_iff_blank_or_overlong "t0" "  ")
             (or_introl eq_refl)).
Defined.

(** C2, as the specification states it, fails: the scenario text is not
    routed to "secops".  Each pattern of that agent wants its key word
    right after the verb, and here the address stands in between. *)
Lemma scan_scenario_not_secops :
  ~ (let c := parse_command "t0" scan_scenario in
     target c = "192.168.1.5"
     /\ agent c = "secops"
     /\ command_type c = "security_scan"
     /\ param "ip_addresses" (parameters c) = Some (PList ["192.168.1.5"])).
Proof.
  vm_compute. intros [_ [H _]]. discriminate H.
Qed.

(** C2, amended.  Parsing the scenario text yields the target
    "192.168.1.5" and the parameter ip_addresses = ["192.168.1.5"]; no
    pattern of any agent matches, so the agent is "orchestrator" and the
    command type "general". *)
Theorem scan_scenario_parsed (now : string) :
  let c := parse_command now scan_scenario in
  target c = "192.168.1.5"
  /\ agent c = "orchestrator"
  /\ command_type c = "general"
  /\ param "ip_addresses" (parameters c) = Some (PList ["192.168.1.5"]).
Proof.
  vm_compute. repeat split.
Qed.

End Classifier.

(** ** The capability registry *)

Section Registry.

(** C5.  When the agent of a command names a registered built-in handler,
    [execute_command] returns what that handler gives (its result, or the
    error string made from the exception it raises) and runs nothing else:
    the only event is the execution of that handler, whatever the plugins
    are and whether or not one of them matches the command. *)
Theorem builtin_handler_first (o : Orchestrator) (command : Command)
  (h : handler) :
  lookup (agent command) (agents o) = Some h ->
  execute_command o command =
    (caught (h (target command) (parameters command)),
     [AgentExecuted (agent command) (target command) (parameters command)]).
Proof.
  intros H. unfold execute_command. rewrite H. reflexivity.
Qed.

Lemma builtin_handler_first_witness :
  let command := parse_command "t0" "port scan 10.0.0.1" in
  _plugin_matches "port_scan" (command_type command) (target command) = true
  /\ execute_command registry_with_rival command =
       ("OK:scan-done",
        [AgentExecuted "secops" "10.0.0.1"
           [("ip_addresses", PList ["10.0.0.1"])]]).
Proof.
  split; [vm_compute; reflexivity|].
  rewrite (@builtin_handler_first registry_with_rival
             (parse_command "t0" "port scan 10.0.0.1") stub_secops)
    by (vm_compute; reflexivity).
  vm_compute. reflexivity.
Defined.

End Registry.

(** ** Writing and reading back with [json] *)

Section JsonText.

Local Open Scope string_scope.

Lemma append_assoc (a b c : string) : (a ++ b) ++ c = a ++ (b ++ c).
Proof. induction a as [|x a IH]; simpl; [reflexivity|now rewrite IH]. Qed.

Lemma length_append (a b : string) :
  String.length (a ++ b) = String.length a + String.length b.
Proof. induction a as [|x a IH]; simpl; [reflexivity|now rewrite IH]. Qed.

Lemma to_uint_no_leading_zero (p : positive) (d : Decimal.uint) :
  Pos.to_uint p <> Decimal.D0 d.
Proof.
  intros H.
  pose proof (DecimalPos.Unsigned.to_of (Pos.to_uint p)) as Hn.
  rewrite DecimalPos.Unsigned.of_to in Hn. simpl in Hn.
  rewrite H in Hn at 1.
  unfold Decimal.unorm in Hn.
  destruct (Decimal.nzhead (Pos.to_uint p)) eqn:Hz;
    try (symmetry in Hn; revert Hn; rewrite <- Hz; apply DecimalFacts.nzhead_nonzero).
  apply (DecimalPos.Unsigned.to_uint_nonzero p).
  rewrite H. now injection Hn as ->.
Qed.

Lemma span_digits_uint (d : Decimal.uint) (rest : string) :
  starts_with_digit rest = false ->
  span_digits (NilEmpty.string_of_uint d ++ rest) =
    (NilEmpty.string_of_uint d, rest).
Proof.
  intros Hr. induction d; simpl; try (rewrite IHd; reflexivity).
  destruct rest as [|c r]; [reflexivity|].
  simpl in *. now rewrite Hr.
Qed.

Lemma int_acc_uint (d : Decimal.uint) (acc : positive) :
  PyStr.int_acc (Zpos acc) (NilEmpty.string_of_uint d) =
    Zpos (Pos.of_uint_acc d acc).
Proof.
  revert acc.
  induction d; intros acc;
    cbn [NilEmpty.string_of_uint PyStr.int_acc Pos.of_uint_acc];
    [reflexivity|..];
    rewrite <- IHd; f_equal;
    match goal with
    | |- context [Z.of_N (PyStr.code ?c)] =>
        let v := eval vm_compute in (Z.of_N (PyStr.code c)) in
        change (Z.of_N (PyStr.code c)) with v
    end; lia.
Qed.

Lemma int_uint (d : Decimal.uint) :
  PyStr.int (NilEmpty.string_of_uint d) = Z.of_N (Pos.of_uint d).
Proof.
  unfold PyStr.int.
  induction d; simpl; try reflexivity; try exact IHd;
    apply int_acc_uint.
Qed.

Lemma int_to_uint (p : positive) :
  PyStr.int (NilEmpty.string_of_uint (Pos.to_uint p)) = Zpos p.
Proof.
  rewrite int_uint, DecimalPos.Unsigned.of_to. reflexivity.
Qed.

Lemma read_digits_pos (p : positive) (neg : bool) (rest : string) :
  ends_number rest = true ->
  read_digits neg (NilEmpty.string_of_uint (Pos.to_uint p) ++ rest) =
    Some (VInt (if neg then Zneg p else Zpos p), rest).
Proof.
  intros He. apply andb_prop in He as [Hd Hf].
  apply negb_true_iff in Hd. apply negb_true_iff in Hf.
  pose proof (int_to_uint p) as Hi.
  pose proof (span_digits_uint (Pos.to_uint p) rest Hd) as Hs.
  pose proof (@to_uint_no_leading_zero p) as Hz.
  pose proof (DecimalPos.Unsigned.to_uint_nonnil p) as Hn.
  unfold read_digits.
  destruct (Pos.to_uint p) as [|d|d|d|d|d|d|d|d|d|d];
    [now elim Hn | now elim (Hz d) | ..];
    simpl NilEmpty.string_of_uint in *; simpl append in *;
    cbv beta iota;
    match goal with
    | |- context [Ascii.eqb ?a "0"] => change (Ascii.eqb a "0") with false
    end;
    match goal with
    | |- context [PyStr.isdigit ?a] => change (PyStr.isdigit a) with true
    end;
    cbv iota; rewrite Hs; unfold finish_number; rewrite Hf, Hi;
    destruct neg; reflexivity.
Qed.

Lemma string_of_uint_pos (p : positive) :
  NilZero.string_of_uint (Pos.to_uint p) =
    NilEmpty.string_of_uint (Pos.to_uint p).
Proof.
  unfold NilZero.string_of_uint.
  pose proof (DecimalPos.Unsigned.to_uint_nonnil p) as Hn.
  destruct (Pos.to_uint p); [now elim Hn|reflexivity..].
Qed.

Lemma parse_number_repr (z : Z) (rest : string) :
  ends_number rest = true ->
  parse_number (repr_int z ++ rest) = Some (VInt z, rest).
Proof.
  intros He. unfold repr_int.
  destruct z as [|p|p]; simpl Z.to_int; simpl NilZero.string_of_int.
  - simpl. unfold finish_number.
    apply andb_prop in He as [_ Hf]. apply negb_true_iff in Hf.
    now rewrite Hf.
  - rewrite string_of_uint_pos.
    pose proof (read_digits_pos p false rest He) as H.
    pose proof (@to_uint_no_leading_zero p) as Hz.
    pose proof (DecimalPos.Unsigned.to_uint_nonnil p) as Hn.
    unfold parse_number.
    destruct (Pos.to_uint p) as [|d|d|d|d|d|d|d|d|d|d];
      [now elim Hn | now elim (Hz d) | ..]; exact H.
  - rewrite string_of_uint_pos. unfold parse_number. simpl append.
    cbv beta iota. change (Ascii.eqb "-" "-") with true. cbv iota.
    exact (read_digits_pos p true rest He).
Qed.

Lemma scanstring_escape_char (c : ascii) (s : string) :
  scanstring (escape_char c ++ s) = cons_char c (scanstring s).
Proof.
  destruct c as [[] [] [] [] [] [] [] []]; reflexivity.
Qed.

Lemma scanstring_escape (s rest : string) :
  scanstring (escape s ++ String dquote rest) = Some (s, rest).
Proof.
  induction s as [|c s IH]; [reflexivity|].
  cbn [escape]. 
  replace ((escape_char c ++ escape s) ++ String dquote rest)
    with (escape_char c ++ (escape s ++ String dquote rest)).
  - rewrite scanstring_escape_char, IH. reflexivity.
  - generalize (escape_char c). intros a. 
    induction a as [|x a IHa]; simpl; [reflexivity|now rewrite IHa].
Qed.


Section ValueInd.

Variable P : value -> Prop.
Hypothesis HNone : P VNone.
Hypothesis HBool : forall b, P (VBool b).
Hypothesis HInt : forall z, P (VInt z).
Hypothesis HStr : forall s, P (VStr s).
Hypothesis HList : forall l, Forall P l -> P (VList l).
Hypothesis HDict : forall kv, Forall (fun p => P (snd p)) kv -> P (VDict kv).

Fixpoint value_nested_ind (v : value) : P v :=
  match v with
  | VNone => HNone
  | VBool b => HBool b
  | VInt z => HInt z
  | VStr s => HStr s
  | VList l =>
      @HList l ((fix all (l : list value) : Forall P l :=
                match l with
                | [] => Forall_nil P
                | x :: l' => Forall_cons x (value_nested_ind x) (all l')
                end) l)
  | VDict kv =>
      @HDict kv ((fix all (kv : list (string * value))
                : Forall (fun p => P (snd p)) kv :=
                match kv with
                | [] => Forall_nil _
                | p :: kv' =>
                    Forall_cons p (value_nested_ind (snd p)) (all kv')
                end) kv)
  end.

End ValueInd.

Lemma encode_list (level : nat) (x : value) (xs : list value) :
  encode level (VList (x :: xs)) =
    "[" ++ newline_indent (S level) ++ encode (S level) x ++ list_tail level xs.
Proof.
  reflexivity.
Qed.

Lemma encode_dict (level : nat) (k : string) (x : value)
  (kvs : list (string * value)) :
  encode level (VDict ((k, x) :: kvs)) =
    "{" ++ newline_indent (S level) ++ encode_basestring k ++ ": "
    ++ encode (S level) x ++ dict_tail level kvs.
Proof.
  reflexivity.
Qed.

Lemma skip_ws_spaces (n : nat) (s : string) :
  skip_ws (spaces n ++ s) = skip_ws s.
Proof.
  induction n as [|n IH]; [reflexivity|]. simpl. exact IH.
Qed.

Lemma skip_ws_newline_indent (n : nat) (s : string) :
  skip_ws (newline_indent n ++ s) = skip_ws s.
Proof.
  unfold newline_indent. simpl. apply skip_ws_spaces.
Qed.

Lemma skip_ws_starts_value (s : string) :
  starts_value s = true -> skip_ws s = s.
Proof.
  destruct s as [|c s]; [discriminate|]. simpl.
  destruct (is_ws c); [discriminate|reflexivity].
Qed.

Lemma repr_int_starts_number (z : Z) (rest : string) :
  starts_number (repr_int z ++ rest) = true.
Proof.
  unfold repr_int.
  destruct z as [|p|p]; simpl Z.to_int; simpl NilZero.string_of_int;
    try reflexivity.
  rewrite string_of_uint_pos.
  pose proof (DecimalPos.Unsigned.to_uint_nonnil p) as Hn.
  destruct (Pos.to_uint p); [now elim Hn|reflexivity..].
Qed.

Lemma starts_number_value (s : string) :
  starts_number s = true -> starts_value s = true.
Proof.
  destruct s as [|c s]; [discriminate|].
  destruct c as [[] [] [] [] [] [] [] []]; simpl; intros H;
    try discriminate H; reflexivity.
Qed.

Lemma scan_once_number (fuel : nat) (s : string) :
  starts_number s = true -> scan_once (S fuel) s = parse_number s.
Proof.
  destruct s as [|c s]; [discriminate|].
  destruct c as [[] [] [] [] [] [] [] []]; simpl; intros H;
    try discriminate H; reflexivity.
Qed.

Lemma encode_starts_value (level : nat) (v : value) (rest : string) :
  starts_value (encode level v ++ rest) = true.
Proof.
  destruct v as [| [] | z | s | [|x xs] | [|[k x] kvs]]; try reflexivity.
  apply starts_number_value, repr_int_starts_number.
Qed.

Lemma ends_number_comma (s : string) : ends_number ("," ++ s) = true.
Proof. reflexivity. Qed.

Lemma ends_number_newline (n : nat) (s : string) :
  ends_number (newline_indent n ++ s) = true.
Proof. reflexivity. Qed.

Lemma ends_number_list_tail (level : nat) (l : list value) (rest : string) :
  ends_number (list_tail level l ++ rest) = true.
Proof. destruct l; reflexivity. Qed.

Lemma ends_number_dict_tail (level : nat) (l : list (string * value))
  (rest : string) :
  ends_number (dict_tail level l ++ rest) = true.
Proof. destruct l as [|[k y] l]; reflexivity. Qed.

Lemma length_list_tail (level : nat) (l : list value) :
  List.length l < String.length (list_tail level l).
Proof.
  induction l as [|y l IH]; [simpl; lia|].
  cbn [list_tail List.length]. rewrite !length_append.
  change (String.length ",") with 1. lia.
Qed.

Lemma length_dict_tail (level : nat) (l : list (string * value)) :
  List.length l < String.length (dict_tail level l).
Proof.
  induction l as [|[k y] l IH]; [simpl; lia|].
  cbn [dict_tail List.length]. rewrite !length_append.
  change (String.length ",") with 1. lia.
Qed.

Lemma skip_ws_comma (s : string) : skip_ws ("," ++ s) = String "," s.
Proof. reflexivity. Qed.

Lemma array_items_reads (f level : nat) (rest : string) (xs : list value) :
  Forall (reads_back f) xs ->
  forall x acc n,
    reads_back f x ->
    List.length xs < n ->
    array_items (scan_once f) n acc
      (encode (S level) x ++ list_tail level xs ++ rest) =
      Some (VList (rev acc ++ x :: xs)%list, rest).
Proof.
  induction 1 as [|y ys Hy _ IH]; intros x acc n Hx Hn;
    (destruct n as [|n]; [simpl in Hn; lia|]); cbn [array_items].
  - rewrite (Hx (S level)) by apply ends_number_list_tail.
    cbn [list_tail]. rewrite append_assoc, skip_ws_newline_indent.
    simpl. reflexivity.
  - rewrite (Hx (S level)) by apply ends_number_list_tail.
    cbn [list_tail]. rewrite !append_assoc, skip_ws_comma.
    cbv beta iota.
    change (Ascii.eqb "," "]") with false.
    change (Ascii.eqb "," ",") with true. cbv iota.
    rewrite skip_ws_newline_indent.
    rewrite skip_ws_starts_value by apply encode_starts_value.
    rewrite IH; [|exact Hy|simpl in Hn; lia].
    simpl. now rewrite <- List.app_assoc.
Qed.

Lemma distinct_NoDup (l : list string) : distinct l = true <-> NoDup l.
Proof.
  induction l as [|x l IH]; simpl.
  - split; [constructor|reflexivity].
  - rewrite andb_true_iff, negb_true_iff, IH. split.
    + intros [Hm Hd]. constructor; [|exact Hd].
      intros Hin. unfold PyStr.mem in Hm.
      assert (existsb (String.eqb x) l = true); [|congruence].
      apply existsb_exists. exists x. split; [exact Hin|apply String.eqb_refl].
    + intros Hnd. inversion Hnd as [|y l' Hni Hd]; subst. split; [|exact Hd].
      unfold PyStr.mem. destruct (existsb (String.eqb x) l) eqn:He; [|reflexivity].
      apply existsb_exists in He as [y [Hin Hy]].
      apply String.eqb_eq in Hy. subst. now elim Hni.
Qed.

Lemma dict_set_fresh (k : string) (v : value) (d : list (string * value)) :
  ~ In k (map fst d) -> dict_set k v d = (d ++ [(k, v)])%list.
Proof.
  induction d as [|[k' x] d IH]; simpl; intros Hni; [reflexivity|].
  destruct (String.eqb_spec k' k) as [->|_].
  - elim Hni. now left.
  - rewrite IH; [reflexivity|]. intros Hin. apply Hni. now right.
Qed.

Lemma fold_dict_set (pairs d : list (string * value)) :
  NoDup (map fst d ++ map fst pairs)%list ->
  fold_left (fun d kv => dict_set (fst kv) (snd kv) d) pairs d
  = (d ++ pairs)%list.
Proof.
  revert d. induction pairs as [|[k v] ps IH]; intros d Hnd; simpl.
  - now rewrite List.app_nil_r.
  - simpl in Hnd. rewrite dict_set_fresh.
    + rewrite IH.
      * now rewrite <- List.app_assoc.
      * rewrite map_app. simpl. now rewrite <- List.app_assoc.
    + apply NoDup_remove_2 in Hnd. intros Hin. apply Hnd.
      apply in_or_app. now left.
Qed.

Lemma dict_of_pairs_distinct (kv : list (string * value)) :
  distinct (map fst kv) = true -> dict_of_pairs kv = kv.
Proof.
  intros H. apply distinct_NoDup in H.
  unfold dict_of_pairs. now rewrite fold_dict_set.
Qed.

Lemma encode_basestring_append (k rest : string) :
  encode_basestring k ++ rest = String dquote (escape k ++ String dquote rest).
Proof.
  unfold encode_basestring. simpl. f_equal. apply append_assoc.
Qed.

Lemma encode_basestring_starts_value (k rest : string) :
  starts_value (encode_basestring k ++ rest) = true.
Proof. reflexivity. Qed.

Lemma object_items_reads (f level : nat) (rest : string)
  (kvs : list (string * value)) :
  Forall (fun p => reads_back f (snd p)) kvs ->
  forall k x acc n,
    reads_back f x ->
    List.length kvs < n ->
    object_items (scan_once f) n acc
      (encode_basestring k ++ ": " ++ encode (S level) x
       ++ dict_tail level kvs ++ rest) =
      Some (VDict (dict_of_pairs (rev acc ++ (k, x) :: kvs)%list), rest).
Proof.
  induction 1 as [|[k' y] ys Hy _ IH]; intros k x acc n Hx Hn;
    (destruct n as [|n]; [simpl in Hn; lia|]); cbn [object_items];
    rewrite encode_basestring_append;
    change (PyStr.code dquote =? 34)%N with true; cbv iota;
    rewrite scanstring_escape;
    change (skip_ws (": " ++ ?s)) with (String ":" (String " " s));
    cbv iota; change (Ascii.eqb ":" ":") with true; cbv iota;
    change (skip_ws (String " " ?s)) with (skip_ws s);
    rewrite skip_ws_starts_value by apply encode_starts_value;
    rewrite (Hx (S level)) by apply ends_number_dict_tail.
  - cbn [dict_tail]. rewrite append_assoc, skip_ws_newline_indent.
    simpl. reflexivity.
  - cbn [dict_tail]. rewrite !append_assoc, skip_ws_comma.
    cbv beta iota.
    change (Ascii.eqb "," "}") with false.
    change (Ascii.eqb "," ",") with true. cbv iota.
    rewrite skip_ws_newline_indent.
    rewrite skip_ws_starts_value by apply encode_basestring_starts_value.
    simpl snd in Hy.
    rewrite IH; [|exact Hy|simpl in Hn; lia].
    simpl. now rewrite <- List.app_assoc.
Qed.

Lemma height_in_list (y : value) (l : list value) :
  In y l -> height y <= fold_right (fun x => Nat.max (height x)) 0 l.
Proof.
  induction l as [|x l IH]; simpl; [tauto|].
  intros [->|Hin]; [lia|]. specialize (IH Hin). lia.
Qed.

Lemma height_in_dict (p : string * value) (l : list (string * value)) :
  In p l ->
  height (snd p) <= fold_right (fun q => Nat.max (height (snd q))) 0 l.
Proof.
  induction l as [|x l IH]; simpl; [tauto|].
  intros [->|Hin]; [lia|]. specialize (IH Hin). lia.
Qed.

Lemma append_nil_r (s : string) : s ++ "" = s.
Proof. induction s as [|c s IH]; simpl; [reflexivity|now rewrite IH]. Qed.

Lemma scan_once_encode (v : value) :
  forall fuel, height v <= fuel -> well_formed v = true -> reads_back fuel v.
Proof.
  induction v as [| b | z | s | l IH | kv IH] using value_nested_ind;
    intros fuel Hh Hwf level rest Hr;
    (destruct fuel as [|f]; [simpl in Hh; lia|]).
  - reflexivity.
  - destruct b; reflexivity.
  - cbn [encode].
    rewrite scan_once_number by apply repr_int_starts_number.
    now apply parse_number_repr.
  - cbn [encode]. rewrite encode_basestring_append. cbn [scan_once].
    change (PyStr.code dquote =? 34)%N with true. cbv iota.
    now rewrite scanstring_escape.
  - destruct l as [|x xs]; [reflexivity|].
    assert (Hall : Forall (reads_back f) (x :: xs)).
    { apply Forall_forall. intros y Hy.
      rewrite Forall_forall in IH. apply IH; [exact Hy| |].
      - pose proof (height_in_list y (x :: xs) Hy) as Hle.
        simpl in Hh, Hle. lia.
      - cbn [well_formed] in Hwf. rewrite forallb_forall in Hwf.
        now apply Hwf. }
    inversion Hall as [|x' xs' Hx Hxs]; subst.
    rewrite encode_list, !append_assoc.
    change ("[" ++ ?s) with (String "[" s).
    cbn [scan_once].
    change (PyStr.code "[" =? 34)%N with false.
    change (Ascii.eqb "[" "{") with false.
    change (Ascii.eqb "[" "[") with true. cbv iota.
    rewrite skip_ws_newline_indent.
    rewrite skip_ws_starts_value by apply encode_starts_value.
    pose proof (encode_starts_value (S level) x
                  (list_tail level xs ++ rest)) as Hs.
    destruct (encode (S level) x ++ list_tail level xs ++ rest)
      as [|c r] eqn:Hb; [discriminate|].
    simpl in Hs. apply andb_prop in Hs as [Hs _]. apply andb_prop in Hs as [_ Hs].
    apply negb_true_iff in Hs. rewrite Hs. rewrite <- Hb.
    rewrite (@array_items_reads f level rest xs Hxs x [] _ Hx).
    + reflexivity.
    + cbn [String.length]. rewrite !length_append.
      pose proof (length_list_tail level xs). lia.
  - destruct kv as [|[k x] kvs]; [reflexivity|].
    assert (Hwf' : distinct (map fst ((k, x) :: kvs)) = true
                   /\ forallb (fun p => well_formed (snd p)) ((k, x) :: kvs) = true).
    { cbn [well_formed] in Hwf. apply andb_prop in Hwf. exact Hwf. }
    destruct Hwf' as [Hd Hw].
    assert (Hall : Forall (fun p => reads_back f (snd p)) ((k, x) :: kvs)).
    { apply Forall_forall. intros p Hp.
      rewrite Forall_forall in IH. apply IH; [exact Hp| |].
      - pose proof (height_in_dict p ((k, x) :: kvs) Hp) as Hle.
        simpl in Hh, Hle. lia.
      - rewrite forallb_forall in Hw. now apply Hw. }
    inversion Hall as [|p' kvs' Hx Hxs]; subst. simpl snd in Hx.
    rewrite encode_dict, !append_assoc.
    change ("{" ++ ?s) with (String "{" s).
    cbn [scan_once].
    change (PyStr.code "{" =? 34)%N with false.
    change (Ascii.eqb "{" "{") with true. cbv iota.
    rewrite skip_ws_newline_indent.
    rewrite skip_ws_starts_value by apply encode_basestring_starts_value.
    rewrite encode_basestring_append at 1.
    cbv iota. change (Ascii.eqb dquote "}") with false. cbv iota.
    rewrite (@object_items_reads f level rest kvs Hxs k x [] _ Hx).
    + simpl rev. simpl app. now rewrite dict_of_pairs_distinct.
    + cbn [String.length]. rewrite !length_append.
      pose proof (length_dict_tail level kvs). lia.
Qed.

Lemma height_list_tail (level : nat) (l : list value) :
  Forall (fun y => forall level, height y <= String.length (encode level y)) l ->
  fold_right (fun x => Nat.max (height x)) 0 l
  <= String.length (list_tail level l).
Proof.
  induction 1 as [|y l Hy _ IH]; [simpl; lia|].
  cbn [list_tail fold_right]. rewrite !length_append.
  specialize (Hy (S level)). lia.
Qed.

Lemma height_dict_tail (level : nat) (l : list (string * value)) :
  Forall (fun p => forall level,
            height (snd p) <= String.length (encode level (snd p))) l ->
  fold_right (fun p => Nat.max (height (snd p))) 0 l
  <= String.length (dict_tail level l).
Proof.
  induction 1 as [|[k y] l Hy _ IH]; [simpl; lia|].
  cbn [dict_tail fold_right snd]. rewrite !length_append.
  specialize (Hy (S level)). simpl snd in Hy. lia.
Qed.

Lemma height_le_length (v : value) (level : nat) :
  height v <= String.length (encode level v).
Proof.
  revert level.
  induction v as [| b | z | s | l IH | kv IH] using value_nested_ind;
    intros level.
  - simpl. lia.
  - destruct b; simpl; lia.
  - pose proof (repr_int_starts_number z "") as H.
    rewrite append_nil_r in H. cbn [encode height].
    destruct (repr_int z); [discriminate|simpl; lia].
  - simpl. lia.
  - destruct l as [|x xs]; [simpl; lia|].
    inversion IH as [|x' xs' Hx Hxs]; subst.
    rewrite encode_list. cbn [height fold_right].
    rewrite !length_append.
    pose proof (height_list_tail level Hxs).
    specialize (Hx (S level)).
    change (String.length "[") with 1. lia.
  - destruct kv as [|[k x] kvs]; [simpl; lia|].
    inversion IH as [|p' kvs' Hx Hxs]; subst. simpl snd in Hx.
    rewrite encode_dict. cbn [height fold_right snd].
    rewrite !length_append.
    pose proof (height_dict_tail level Hxs).
    specialize (Hx (S level)).
    change (String.length "{") with 1. lia.
Qed.

(** Writing a value and reading the text back gives the value again,
    for values whose dictionaries have distinct keys. *)
Lemma loads_dumps (v : value) :
  well_formed v = true -> loads (dumps v) = Ok v.
Proof.
  intros Hwf. unfold loads, dumps.
  pose proof (encode_starts_value 0 v "") as Hs.
  rewrite append_nil_r in Hs.
  rewrite skip_ws_starts_value by exact Hs.
  pose proof (@scan_once_encode v (String.length (encode 0 v))
                (height_le_length v 0) Hwf 0 "" eq_refl) as H.
  rewrite append_nil_r in H. rewrite H. reflexivity.
Qed.

Lemma repr_int_inj (x y : Z) : repr_int x = repr_int y -> x = y.
Proof.
  intros H.
  pose proof (@parse_number_repr x "" eq_refl) as Hx.
  pose proof (@parse_number_repr y "" eq_refl) as Hy.
  rewrite append_nil_r in Hx, Hy. rewrite H in Hx. congruence.
Qed.

Lemma numeric_uint (d : Decimal.uint) : numeric (NilEmpty.string_of_uint d).
Proof.
  induction d; intros a b H; simpl in H;
    destruct a as [|c a]; simpl in H; try discriminate;
    injection H as _ H; now apply (IHd a b).
Qed.

Lemma numeric_repr_int (z : Z) : numeric (repr_int z).
Proof.
  unfold repr_int.
  destruct z as [|p|p]; simpl Z.to_int; simpl NilZero.string_of_int.
  - intros [|c [|c' a]] b H; discriminate.
  - rewrite string_of_uint_pos. apply numeric_uint.
  - rewrite string_of_uint_pos. intros [|c a] b H; [discriminate|].
    simpl in H. injection H as _ H.
    now apply (@numeric_uint (Pos.to_uint p) a b).
Qed.

Lemma split_at_underscore (a a' b b' : string) :
  numeric a -> numeric a' ->
  a ++ String "_" b = a' ++ String "_" b' -> a = a' /\ b = b'.
Proof.
  revert a'. induction a as [|c a IH]; intros [|c' a'] Ha Ha' H; simpl in H.
  - injection H as H. now split.
  - injection H as Hc H. subst c'.
    elim (Ha' EmptyString a'). reflexivity.
  - injection H as Hc H. subst c.
    elim (Ha EmptyString a). reflexivity.
  - injection H as Hc H. subst c'.
    destruct (IH a') as [Ea Eb]; [| |exact H|subst; now split].
    + intros x y E. apply (Ha (String c x) y). simpl. now rewrite E.
    + intros x y E. apply (Ha' (String c x) y). simpl. now rewrite E.
Qed.

End JsonText.

(** ** The audit log *)

Section AuditLog.

Lemma save_memory_data (m : MemoryEngine) :
  memory_data (save_memory m) = memory_data m.
Proof.
  unfold save_memory.
  destruct (encrypt (encryption m) _); [|reflexivity].
  destruct (write_file memory_file _ (files m)); reflexivity.
Qed.

(** C9.  After [clear_memory], [get_statistics] returns its dictionary (not
    the empty one of the exception handler) with total_entries = 0 and
    success_rate = 0: on the empty log the quotient is not computed, so no
    division by zero is raised. *)
Theorem statistics_after_clear (m : MemoryEngine) :
  exists s,
    get_statistics (clear_memory m) = Some s
    /\ total_entries s = 0
    /\ success_rate s = 0%float.
Proof.
  unfold get_statistics, clear_memory.
  rewrite save_memory_data. simpl.
  eexists. split; [reflexivity|]. split; reflexivity.
Qed.

Lemma get_raises (entry : value) (k : string) (d : value) (e : string) :
  get entry k d = Raise e -> e = "AttributeError".
Proof.
  destruct entry; simpl; intros H; inversion H; reflexivity.
Qed.

Lemma count_success_raises (data : list value) (e : string) :
  count_success data = Raise e -> e = "AttributeError".
Proof.
  induction data as [|entry rest IH]; simpl; [discriminate|].
  destruct (get entry "success" (VBool false)) eqn:Hg; simpl.
  - destruct (count_success rest); simpl; [discriminate|].
    intros H. apply IH. exact H.
  - intros H. inversion H; subst. eapply get_raises; eauto.
Qed.

Lemma count_agents_raises (data : list value) (acc : list (key * value * nat))
  (e : string) :
  count_agents data acc = Raise e -> e <> "ZeroDivisionError".
Proof.
  revert acc. induction data as [|entry rest IH]; simpl; intros acc;
    [discriminate|].
  destruct (get entry "agent" (VStr "unknown")) as [a|e'] eqn:Hg; simpl.
  - destruct a; simpl; try apply IH; intros H; inversion H; discriminate.
  - intros H. inversion H; subst.
    apply get_raises in Hg. subst. discriminate.
Qed.

Lemma subscript_timestamp_raises (entry : value) (e : string) :
  subscript_timestamp entry = Raise e -> e <> "ZeroDivisionError".
Proof.
  destruct entry; simpl; try (intros H; inversion H; discriminate).
  destruct (dict_get "timestamp" kv); intros H; inversion H; discriminate.
Qed.

(** The quotient is only asked for a log that is not empty: whatever
    makes [get_statistics] fall back on the empty dictionary, it is never
    a division by zero. *)
Lemma statistics_never_divide_by_zero (data : list value) :
  statistics_of data <> Raise "ZeroDivisionError".
Proof.
  unfold statistics_of.
  destruct (count_success data) as [n|e] eqn:Hs; simpl.
  2:{ apply count_success_raises in Hs. subst. discriminate. }
  destruct (count_agents data []) as [ag|e] eqn:Ha; simpl.
  2:{ intros H. inversion H; subst.
      now apply count_agents_raises in Ha. }
  assert (Hq : exists q,
             (if Nat.ltb 0 (List.length data)
              then q <- truediv n (List.length data) ;; Ok (q * 100)%float
              else Ok 0%float) = Ok q).
  { destruct data; simpl; eexists; reflexivity. }
  destruct Hq as [q ->]. simpl.
  destruct data as [|first rest]; simpl; [discriminate|].
  destruct (subscript_timestamp first) as [t|e] eqn:Ht; simpl.
  2:{ intros H. inversion H; subst.
      now apply subscript_timestamp_raises in Ht. }
  destruct (rev rest ++ [first]) as [|last l]; simpl; [discriminate|].
  destruct (subscript_timestamp last) as [t'|e] eqn:Ht'; simpl;
    [discriminate|].
  intros H. inversion H; subst.
  now apply subscript_timestamp_raises in Ht'.
Qed.

(** C10.  With limit 0 [get_recent_entries] returns the whole log, in
    insertion order: the slice from index -0 starts at the first entry. *)
Theorem recent_entries_limit_zero (m : MemoryEngine) :
  get_recent_entries m 0 = memory_data m.
Proof.
  unfold get_recent_entries.
  destruct (memory_data m) as [|entry rest]; reflexivity.
Qed.

(** C4 fails on the code: the sequence number of an id is the current
    length of the log, which a deletion lowers.  After the deletion the
    third entry receives the id the second one already has. *)
Theorem generate_id_repeats_after_delete :
  fst (run_ops empty_log burst_with_delete) =
    [ Some "mem_1700000000000_0";
      Some "mem_1700000000000_1";
      Some "mem_1700000000000_1" ]
  /\ ~ NoDup (fst (run_ops empty_log burst_with_delete)).
Proof.
  assert (H : fst (run_ops empty_log burst_with_delete) =
              [ Some "mem_1700000000000_0";
                Some "mem_1700000000000_1";
                Some "mem_1700000000000_1" ])
    by (vm_compute; reflexivity).
  split; [exact H|].
  rewrite H. intros Hnd.
  inversion Hnd as [|x l _ Hnd']. subst.
  inversion Hnd' as [|y l' Hin _]. subst.
  apply Hin. left. reflexivity.
Qed.

Lemma generate_id_inj (now now' : Clock) (m m' : MemoryEngine) :
  generate_id now m = generate_id now' m' ->
  List.length (memory_data m) = List.length (memory_data m').
Proof.
  unfold generate_id. intros H. simpl in H.
  injection H as H.
  apply split_at_underscore in H as [_ H]; try apply numeric_repr_int.
  apply repr_int_inj in H. lia.
Qed.

Lemma run_ops_adds_from (ops : list log_op) :
  adds_only ops = true ->
  forall m,
    Forall (fun id => exists now' m',
              id = Some (generate_id now' m')
              /\ List.length (memory_data m) <= List.length (memory_data m'))
           (fst (run_ops m ops)).
Proof.
  induction ops as [|op ops IH]; intros Hadd m; simpl; [constructor|].
  destruct op as [now c r a s| |]; try discriminate. simpl in Hadd.
  specialize (IH Hadd).
  set (m1 := save_memory (set_data m (memory_data m ++ _))) in *.
  specialize (IH m1).
  destruct (run_ops m1 ops) as [ids m2]. simpl in *.
  constructor.
  - exists now, m. split; [reflexivity|lia].
  - eapply Forall_impl; [|exact IH]. intros id [now' [m' [-> Hle]]].
    exists now', m'. split; [reflexivity|].
    unfold m1 in Hle. rewrite save_memory_data in Hle. simpl in Hle.
    rewrite length_app in Hle. simpl in Hle. lia.
Qed.

(** X24.  While entries are only added, every id [add_entry] returns is
    new, whatever the clock reads: the sequence number grows with the
    log. *)
Lemma add_only_ids_unique (ops : list log_op) (m : MemoryEngine) :
  adds_only ops = true -> NoDup (fst (run_ops m ops)).
Proof.
  revert m. induction ops as [|op ops IH]; intros m Hadd; simpl;
    [constructor|].
  destruct op as [now c r a s| |]; try discriminate. simpl in Hadd.
  set (m1 := save_memory (set_data m (memory_data m ++ _))).
  pose proof (run_ops_adds_from ops Hadd m1) as Hfrom.
  specialize (IH m1 Hadd).
  destruct (run_ops m1 ops) as [ids m2]. simpl in *.
  constructor; [|exact IH].
  intros Hin. rewrite Forall_forall in Hfrom.
  destruct (Hfrom _ Hin) as [now' [m' [Heq Hle]]].
  assert (Hg : generate_id now m = generate_id now' m') by congruence.
  apply generate_id_inj in Hg.
  unfold m1 in Hle. rewrite save_memory_data in Hle. simpl in Hle.
  rewrite length_app in Hle. simpl in Hle. lia.
Qed.

Lemma search_loop_positive (ql : string) (limit : Z) (entries : list value) :
  Forall (searchable ql) entries ->
  forall results,
    (Z.of_nat (List.length results) < limit)%Z ->
    search_loop ql limit entries results =
      Ok (results
          ++ firstn (Z.to_nat limit - List.length results)
                    (filter (hits ql) entries)).
Proof.
  induction 1 as [|entry rest [b Hb] _ IH]; intros results Hlt; simpl.
  - now rewrite firstn_nil, app_nil_r.
  - unfold hits at 1. rewrite Hb. simpl. destruct b.
    + rewrite length_app. simpl.
      destruct (Z.to_nat limit - List.length results) as [|k] eqn:Hk; [lia|].
      simpl. destruct (Z.leb_spec limit (Z.of_nat (List.length results + 1))).
      * replace k with 0 by lia. reflexivity.
      * rewrite IH by (rewrite length_app; simpl; lia).
        rewrite length_app. simpl. rewrite <- app_assoc. simpl.
        repeat f_equal. lia.
    + apply IH. exact Hlt.
Qed.

(** X23.  For a limit of at least 1, on a log whose entries carry
    strings under command and result, the search returns the first
    [limit] matches met from the newest entry backwards. *)
Lemma search_entries_positive_limit (m : MemoryEngine) (query : string)
  (limit : Z) :
  (1 <= limit)%Z ->
  Forall (searchable (PyStr.lower query)) (memory_data m) ->
  search_entries m query limit =
    Ok (firstn (Z.to_nat limit)
               (filter (hits (PyStr.lower query)) (rev (memory_data m)))).
Proof.
  intros Hl Hwf. unfold search_entries.
  rewrite search_loop_positive.
  - simpl. now rewrite Nat.sub_0_r.
  - apply Forall_forall. intros x Hx. apply in_rev in Hx.
    revert x Hx. now apply Forall_forall.
  - simpl. lia.
Qed.

(** C7 fails on the code for a limit of 0: the loop appends a match
    before it compares the number of results with the limit, so the first
    match is always returned.  Here the log holds one matching entry and
    the search with limit 0 returns it: one entry, more than the limit. *)
Theorem search_limit_zero_returns_one :
  exists entry,
    search_entries one_foo_entry "foo" 0 = Ok [entry]
    /\ hits "foo" entry = true
    /\ ~ (Z.of_nat (List.length [entry]) <= 0)%Z.
Proof.
  eexists. split; [vm_compute; reflexivity|].
  split; [vm_compute; reflexivity|].
  simpl. lia.
Qed.

(** *** Export and import *)

Lemma file_get_set (path data : string) (l : list (string * string)) :
  file_get path (file_set path data l) = Some data.
Proof.
  induction l as [|[p d] l IH]; simpl.
  - now rewrite String.eqb_refl.
  - destruct (String.eqb_spec p path) as [->|Hne]; simpl.
    + now rewrite String.eqb_refl.
    + destruct (String.eqb_spec p path); [contradiction|exact IH].
Qed.

(** C8.  When [export_memory] succeeds, the file holds the log in the
    plain form [json] writes, whatever the encryption manager is; and
    [import_memory] of that file into an engine whose log is empty
    succeeds and leaves that engine with exactly the entries that were
    exported, in the same order. *)
Theorem export_import_round_trip (m exported fresh : MemoryEngine)
  (file_path : string) :
  forallb well_formed (memory_data m) = true ->
  export_memory m file_path = (true, exported) ->
  memory_data fresh = [] ->
  files fresh = files exported ->
  read_file file_path (files exported) = Ok (dumps (VList (memory_data m)))
  /\ fst (import_memory fresh file_path) = true
  /\ memory_data (snd (import_memory fresh file_path)) = memory_data m.
Proof.
  intros Hwf Hexp Hempty Hfiles.
  assert (Hread : read_file file_path (files exported)
                  = Ok (dumps (VList (memory_data m)))).
  { unfold export_memory, write_file in Hexp.
    destruct (PyStr.mem file_path (read_only (files m))); [discriminate|].
    injection Hexp as <-. unfold read_file. simpl.
    now rewrite file_get_set. }
  split; [exact Hread|].
  unfold import_memory. rewrite Hfiles, Hread. simpl.
  rewrite (loads_dumps (VList (memory_data m)) Hwf), Hempty. simpl.
  split; [reflexivity|]. now rewrite save_memory_data.
Qed.

Lemma export_import_round_trip_witness :
  let exported := snd (export_memory two_entries "backup.json") in
  let fresh := MkMemory plain_encryption [] (files exported) in
  List.length (memory_data two_entries) = 2
  /\ read_file "backup.json" (files exported)
     = Ok (dumps (VList (memory_data two_entries)))
  /\ fst (import_memory fresh "backup.json") = true
  /\ memory_data (snd (import_memory fresh "backup.json"))
     = memory_data two_entries.
Proof.
  split; [reflexivity|].
  apply (@export_import_round_trip two_entries
           (snd (export_memory two_entries "backup.json"))
           (MkMemory plain_encryption []
              (files (snd (export_memory two_entries "backup.json"))))
           "backup.json");
    vm_compute; reflexivity.
Defined.

End AuditLog.

(** ** The text path *)

Section TextPath.

(** Whatever the text and the registry, [_handle_transcription] hands the
    parsed command to [execute_command] and appends one entry, logged
    with success set to true. *)
Lemma handle_transcription_effect (now : Clock) (p : VoicePipeline)
  (text : string) :
  let p' := _handle_transcription now p text in
  let command := parse_command (now_iso now) text in
  dispatched p' = dispatched p ++ [command]
  /\ exists entry,
       memory_data (memory p') = memory_data (memory p) ++ [entry]
       /\ get entry "command" VNone = Ok (VStr text)
       /\ get entry "result" VNone =
            Ok (VStr (fst (execute_command (orchestrator p) command)))
       /\ get entry "success" VNone = Ok (VBool true).
Proof.
  unfold _handle_transcription.
  destruct (execute_command (orchestrator p) _) as [res evs] eqn:He.
  simpl. split; [reflexivity|].
  rewrite save_memory_data. simpl.
  eexists. split; [reflexivity|]. repeat split.
Qed.

(** On the transcription path a blank text is dropped before parsing, so
    no error command reaches [execute_command] from there as long as the
    numbers of the text are within the limit of [int]. *)
Lemma process_audio_never_dispatches_error (now : Clock) (p : VoicePipeline)
  (text : string) :
  numbers_within_limit (PyStr.strip text) = true ->
  Forall (fun c => command_type c <> "error") (dispatched p) ->
  Forall (fun c => command_type c <> "error")
         (dispatched (_process_audio now p text)).
Proof.
  intros Hfit H. unfold _process_audio.
  destruct text as [|c t]; [exact H|].
  destruct (PyStr.strip (String c t)) as [|c' t'] eqn:Hs; [exact H|].
  destruct (handle_transcription_effect now p (String c t)) as [-> _].
  apply Forall_app. split; [exact H|].
  constructor; [|constructor].
  apply (parse_command_nonblank (now_iso now) (String c t)).
  - rewrite Hs. discriminate.
  - rewrite Hs. exact Hfit.
Qed.

(** An exception raised by the handler that is chosen comes back as
    a string. *)
Lemma raising_handler_caught (o : Orchestrator) (command : Command)
  (h : handler) (e : string) :
  lookup (agent command) (agents o) = Some h ->
  h (target command) (parameters command) = Raise e ->
  fst (execute_command o command) = ("❌ Execution error: " ++ e)%string.
Proof.
  intros Hl Hr. unfold execute_command. rewrite Hl, Hr. reflexivity.
Qed.

(** C1 fails on the code for direct text entry: [process_text_command]
    does not look at what [parse_command] returned.  A blank text is
    parsed into the error command, that command is handed to
    [execute_command] (where the empty target matches the first plugin),
    and the interaction is logged, with success set to true. *)
Theorem blank_text_dispatched_and_logged :
  let p := process_text_command noon (idle_pipeline sample_registry) "   " in
  exists command entry,
    dispatched p = [command]
    /\ command_type command = "error"
    /\ validate_command command = false
    /\ memory_data (memory p) = [entry]
    /\ get entry "result" VNone =
         Ok (VStr "Hello, ! This is the Hello World plugin speaking.")
    /\ get entry "agent" VNone = Ok (VStr "unknown")
    /\ get entry "success" VNone = Ok (VBool true).
Proof.
  do 2 eexists. vm_compute. repeat split.
Qed.

(** C3 holds in its first half and fails in its second: the exception of
    the handler comes back from [execute_command] as a string, but the
    entry the text path appends for it carries success = true, the
    constant written in [_handle_transcription]. *)
Theorem raising_handler_logged_as_success :
  let text := "port scan 10.0.0.1" in
  let command := parse_command (now_iso noon) text in
  let p := process_text_command noon (idle_pipeline failing_registry) text in
  agent command = "secops"
  /\ execute_command failing_registry command =
       ("❌ Execution error: boom",
        [AgentExecuted "secops" "10.0.0.1" [("ip_addresses", PList ["10.0.0.1"])]])
  /\ exists entry,
       memory_data (memory p) = [entry]
       /\ get entry "result" VNone = Ok (VStr "❌ Execution error: boom")
       /\ get entry "success" VNone = Ok (VBool true).
Proof.
  split; [vm_compute; reflexivity|].
  split; [vm_compute; reflexivity|].
  eexists. vm_compute. repeat split.
Qed.

End TextPath.

(** ** The intent classifier: margins, precedence, command types *)

Section ClassifierMore.

Lemma rstrip_idem (s : string) : PyStr.rstrip (PyStr.rstrip s) = PyStr.rstrip s.
Proof.
  induction s as [|c s IH]; [reflexivity|].
  cbn [PyStr.rstrip].
  destruct (PyStr.rstrip s) as [|d t] eqn:Hr.
  - destruct (PyStr.isspace c) eqn:Hc; [reflexivity|].
    cbn [PyStr.rstrip]. now rewrite Hc.
  - cbn [PyStr.rstrip]. cbn [PyStr.rstrip] in IH.
    fold (PyStr.rstrip t) in *.
    destruct (PyStr.rstrip t); rewrite IH; reflexivity.
Qed.

Lemma rstrip_head (c : ascii) (s : string) :
  PyStr.isspace c = false -> exists t, PyStr.rstrip (String c s) = String c t.
Proof.
  intros Hc. cbn [PyStr.rstrip].
  destruct (PyStr.rstrip s); [rewrite Hc|]; eexists; reflexivity.
Qed.

Lemma lstrip_head (s : string) :
  PyStr.lstrip s = EmptyString
  \/ exists c t, PyStr.lstrip s = String c t /\ PyStr.isspace c = false.
Proof.
  induction s as [|c s IH]; [now left|].
  cbn [PyStr.lstrip]. destruct (PyStr.isspace c) eqn:Hc; [exact IH|].
  right. now exists c, s.
Qed.

Lemma strip_idem (s : string) : PyStr.strip (PyStr.strip s) = PyStr.strip s.
Proof.
  unfold PyStr.strip.
  destruct (lstrip_head s) as [->|[c [t [-> Hc]]]]; [reflexivity|].
  destruct (@rstrip_head c t Hc) as [u Hu].
  rewrite Hu. cbn [PyStr.lstrip]. rewrite Hc. rewrite <- Hu.
  apply rstrip_idem.
Qed.

Lemma strip_nonspace (c : ascii) (s : string) :
  PyStr.isspace c = false -> PyStr.strip (String c s) <> EmptyString.
Proof.
  intros Hc. unfold PyStr.strip. cbn [PyStr.lstrip]. rewrite Hc.
  destruct (@rstrip_head c s Hc) as [u ->]. discriminate.
Qed.

(** X1.  White space around a text never changes its parse: parsing the
    trimmed text gives the same command as parsing the text itself.  The
    original_text of the command is the trimmed text (the empty string
    for a blank text), unless a number of the text is too long for [int]:
    the error command made then carries the empty string. *)
Theorem parse_command_ignores_margins (now text : string) :
  parse_command now (PyStr.strip text) = parse_command now text
  /\ (numbers_within_limit (PyStr.strip text) = true ->
      original_text (parse_command now text) = PyStr.strip text)
  /\ (numbers_within_limit (PyStr.strip text) = false ->
      original_text (parse_command now text) = EmptyString).
Proof.
  split; [|split].
  - unfold parse_command. now rewrite strip_idem.
  - intros Hfit. unfold parse_command.
    destruct (PyStr.strip text) as [|c t]; [reflexivity|].
    destruct (_identify_command_type (String c t)).
    destruct (extract_parameters_within _ Hfit) as [parameters ->].
    reflexivity.
  - intros Hfit.
    destruct (parse_command_overlong now text Hfit) as [e ->]. reflexivity.
Qed.

Lemma parse_command_ignores_margins_witness :
  original_text (parse_command "t0" "  port scan 10.0.0.1 ")
  = "port scan 10.0.0.1"
  /\ original_text (parse_command "t0" long_port_text) = EmptyString.
Proof.
  split.
  - apply (proj1 (proj2 (parse_command_ignores_margins "t0"
                           "  port scan 10.0.0.1 "))).
    vm_compute. reflexivity.
  - apply (proj2 (proj2 (parse_command_ignores_margins "t0" long_port_text))).
    vm_compute. reflexivity.
Defined.

(** X2.  [validate_command] accepts the command [parse_command] returns
    exactly when the text is not blank and none of its numbers is too
    long for [int]. *)
Theorem validate_command_iff_parsed (now text : string) :
  validate_command (parse_command now text) = true
  <-> (PyStr.strip text <> EmptyString
       /\ numbers_within_limit (PyStr.strip text) = true).
Proof.
  unfold validate_command. split.
  - intros H. split.
    + intros Hb. rewrite (parse_command_blank now text Hb) in H.
      discriminate.
    + destruct (numbers_within_limit (PyStr.strip text)) eqn:Hfit;
        [reflexivity|].
      destruct (parse_command_overlong now text Hfit) as [e He].
      rewrite He in H. discriminate.
  - intros [Hn Hfit].
    destruct (parse_command_nonblank now text Hn Hfit) as [Hne _].
    destruct (String.eqb_spec (command_type (parse_command now text)) "error");
      [contradiction|reflexivity].
Qed.

Lemma validate_command_iff_parsed_witness :
  validate_command (parse_command "t0" scan_scenario) = true
  /\ validate_command (parse_command "t0" "  ") <> true
  /\ validate_command (parse_command "t0" long_port_text) <> true.
Proof.
  split; [|split].
  - apply (proj2 (validate_command_iff_parsed "t0" scan_scenario)).
    split; [vm_compute; discriminate|vm_compute; reflexivity].
  - intros H.
    apply (proj1 (proj1 (validate_command_iff_parsed "t0" "  ") H)).
    reflexivity.
  - intros H.
    pose proof (proj2 (proj1 (validate_command_iff_parsed "t0" long_port_text)
                         H)) as Hfit.
    vm_compute in Hfit. discriminate Hfit.
Defined.

Lemma find_first {A : Type} (f : A -> bool) (l : list A) :
  match find f l with
  | Some x =>
      exists before after,
        l = before ++ x :: after
        /\ f x = true
        /\ forallb (fun y => negb (f y)) before = true
  | None => forallb (fun y => negb (f y)) l = true
  end.
Proof.
  induction l as [|a l IH]; [reflexivity|].
  cbn [find]. destruct (f a) eqn:Ha.
  - exists [], l. repeat split. exact Ha.
  - destruct (find f l) as [x|].
    + destruct IH as [before [after [-> [Hx Hb]]]].
      exists (a :: before), after. repeat split; [exact Hx|].
      cbn [forallb]. now rewrite Ha, Hb.
    + cbn [forallb]. now rewrite Ha, IH.
Qed.

(** X3.  Precedence of the classifier: the agent chosen is the first one,
    in the order of [command_patterns], one of whose patterns is found in
    the lowered text (no agent listed before it matches), and the command
    type is the one [_get_command_type] gives for that agent; when no
    agent matches at all the result is ("general", "orchestrator"). *)
Theorem identify_first_matching_agent (text : string) :
  let text_lower := PyStr.lower text in
  let command_type := fst (_identify_command_type text) in
  let agent := snd (_identify_command_type text) in
  (exists before patterns after,
     command_patterns = before ++ (agent, patterns) :: after
     /\ agent_matches text_lower (agent, patterns) = true
     /\ forallb (fun ap => negb (agent_matches text_lower ap)) before = true
     /\ command_type = _get_command_type text_lower agent)
  \/ (forallb (fun ap => negb (agent_matches text_lower ap)) command_patterns
      = true
      /\ command_type = "general" /\ agent = "orchestrator").
Proof.
  cbv zeta. unfold _identify_command_type.
  pose proof (find_first (agent_matches (PyStr.lower text)) command_patterns)
    as H.
  unfold agent_matches in H at 1.
  destruct (find _ command_patterns) as [[ag ps]|].
  - left. destruct H as [before [after [H1 [H2 H3]]]].
    exists before, ps, after. cbn [fst snd]. repeat split; assumption.
  - right. cbn [fst snd]. repeat split. exact H.
Qed.

Lemma identify_agent_listed (text : string) :
  _identify_command_type text = ("general", "orchestrator")
  \/ exists agent,
       _identify_command_type text
       = (_get_command_type (PyStr.lower text) agent, agent)
       /\ In agent (map fst get_supported_commands).
Proof.
  unfold _identify_command_type.
  destruct (find _ command_patterns) as [[ag ps]|] eqn:Hf; [|now left].
  right. exists ag. split; [reflexivity|].
  apply find_some in Hf as [Hin _].
  apply (in_map fst) in Hin.
  exact Hin.
Qed.

Lemma get_command_type_supported (text agent : string) :
  In agent (map fst get_supported_commands) ->
  exists commands,
    lookup agent get_supported_commands = Some commands
    /\ In (_get_command_type text agent) commands
    /\ _get_command_type text agent <> "zero_day_scanning".
Proof.
  intros Hin. cbn in Hin.
  repeat (destruct Hin as [<-|Hin]; [|]); try contradiction;
    (eexists; split; [reflexivity|]);
    unfold _get_command_type; cbn [String.eqb Ascii.eqb Bool.eqb];
    repeat match goal with
           | |- context [if ?b then _ else _] => destruct b
           end;
    (split; [cbn; tauto|discriminate]).
Qed.

(** X4.  Every command type [parse_command] assigns with one of the six
    pattern agents is among those [get_supported_commands] lists for
    that agent; the only other outcomes are ("general", "orchestrator")
    and the error command.  The listed type "zero_day_scanning" is never
    assigned. *)
Theorem command_type_is_supported (now text : string) :
  let c := parse_command now text in
  ((exists commands,
      lookup (agent c) get_supported_commands = Some commands
      /\ In (command_type c) commands)
   \/ (agent c = "orchestrator" /\ command_type c = "general")
   \/ (agent c = "unknown" /\ command_type c = "error"))
  /\ command_type c <> "zero_day_scanning".
Proof.
  cbv zeta. unfold parse_command.
  destruct (PyStr.strip text) as [|ch rest].
  - split; [right; right; now split|discriminate].
  - destruct (identify_agent_listed (String ch rest)) as [->|[ag [-> Hin]]].
    + destruct (_extract_parameters (String ch rest));
        (split; [|discriminate]); [right; left|right; right]; now split.
    + destruct (_extract_parameters (String ch rest)) as [parameters|e].
      * cbn [agent command_type].
        destruct (@get_command_type_supported
                    (PyStr.lower (String ch rest)) ag Hin)
          as [cmds [H1 [H2 H3]]].
        split; [left; now exists cmds|exact H3].
      * split; [right; right; now split|discriminate].
Qed.

End ClassifierMore.

(** ** The intent classifier: target and parameters *)

Section TargetAndParameters.

Lemma findall_search (r : Re.regex) (s : string) :
  match Re.search false r s with
  | Some m =>
      exists rest,
        Re.findall r s
        = (if Re.has_group r then group_1 m else Re.group0 m) :: rest
  | None => Re.findall r s = []
  end.
Proof.
  unfold Re.findall, Re.search, group_1. cbn [Re.finditer].
  destruct (Re.scan false r None s) as [[[m p] s']|]; [|reflexivity].
  destruct (Re.group0 m) eqn:E, s'; eexists; cbn [map]; rewrite ?E;
    reflexivity.
Qed.

Lemma param_app (k : string) (a b : list (string * pvalue)) :
  param k (a ++ b)
  = match param k a with
    | Some v => Some v
    | None => param k b
    end.
Proof.
  induction a as [|[k' v] a IH]; [reflexivity|].
  cbn [app param]. destruct (String.eqb k' k); [reflexivity|exact IH].
Qed.

Lemma param_absent (k : string) (l : list (string * pvalue)) :
  ~ In k (map fst l) -> param k l = None.
Proof.
  induction l as [|[k' v] l IH]; [reflexivity|].
  cbn [map fst In param]. intros H.
  destruct (String.eqb_spec k' k) as [->|_]; [elim H; now left|].
  apply IH. intros Hin. apply H. now right.
Qed.

Lemma flat_map_keys (A : Type) (g : A -> list (string * pvalue))
  (key : A -> string) (l : list A) :
  (forall x, g x = [] \/ exists v, g x = [(key x, v)]) ->
  incl (map fst (flat_map g l)) (map key l).
Proof.
  intros Hg. induction l as [|x l IH]; [intros k H; exact H|].
  cbn [flat_map map]. rewrite map_app.
  intros k Hin. apply in_app_or in Hin as [Hin|Hin].
  - destruct (Hg x) as [E|[v E]]; rewrite E in Hin; [contradiction|].
    destruct Hin as [<-|[]]. now left.
  - right. apply IH. exact Hin.
Qed.

Lemma param_set_if_any (k key : string) (found : list string) :
  param k (set_if_any key found)
  = if String.eqb key k
    then match found with [] => None | _ => Some (PList found) end
    else None.
Proof.
  destruct found; cbn; destruct (String.eqb key k); reflexivity.
Qed.

Lemma flags_keys (text k : string) :
  ~ In k (map fst boolean_flags) ->
  param k
    (flat_map (fun fp => if matches true (snd fp) text
                         then [(fst fp, PBool true)] else [])
              boolean_flags)
  = None.
Proof.
  intros H. apply param_absent. intros Hin. apply H.
  revert Hin. apply flat_map_keys. intros x.
  destruct (matches true (snd x) text); [right; eexists|left]; reflexivity.
Qed.

Lemma numbers_keys (text k : string) (found : list (string * pvalue)) :
  ~ In k (map fst numeric_patterns) ->
  numeric_parameters text numeric_patterns = Ok found ->
  param k found = None.
Proof.
  intros H Hfound. apply param_absent. intros Hin. apply H.
  assert (Hfit : forallb (number_fits text) numeric_patterns = true).
  { destruct (forallb (number_fits text) numeric_patterns) eqn:E;
      [reflexivity|].
    destruct (numeric_parameters_beyond text numeric_patterns E) as [e He].
    congruence. }
  destruct (numeric_parameters_within text numeric_patterns Hfit)
    as [found' [Hf Hincl]].
  assert (found' = found) by congruence. subst found'.
  now apply Hincl.
Qed.

Lemma extract_parameters_lists (text : string)
  (parameters : list (string * pvalue)) :
  _extract_parameters text = Ok parameters ->
  param "files" parameters
  = found_or_none (Re.findall pattern_file_path text)
  /\ param "urls" parameters
     = found_or_none (Re.findall pattern_url text)
  /\ param "ip_addresses" parameters
     = found_or_none (Re.findall pattern_ip_address text).
Proof.
  unfold _extract_parameters.
  set (flags := flat_map _ boolean_flags).
  assert (Hflags : forall k,
             ~ In k (map fst boolean_flags) -> param k flags = None)
    by (intros k Hk; now apply flags_keys).
  clearbody flags.
  destruct (numeric_parameters text numeric_patterns) as [found|e] eqn:Hn;
    unfold bind; [|discriminate].
  intros H. injection H as <-.
  assert (Hnum : forall k,
             ~ In k (map fst numeric_patterns) -> param k found = None)
    by (intros k Hk; now apply (numbers_keys text)).
  assert (Hf : ~ In "files" (map fst boolean_flags)
               /\ ~ In "urls" (map fst boolean_flags)
               /\ ~ In "ip_addresses" (map fst boolean_flags)
               /\ ~ In "files" (map fst numeric_patterns)
               /\ ~ In "urls" (map fst numeric_patterns)
               /\ ~ In "ip_addresses" (map fst numeric_patterns)).
  { repeat split; cbn; intros H; repeat destruct H as [H|H];
      discriminate H || exact H. }
  destruct Hf as [F1 [F2 [F3 [N1 [N2 N3]]]]].
  repeat split; rewrite <- !app_assoc; do 4 rewrite param_app;
    rewrite !param_set_if_any;
    cbn [String.eqb Ascii.eqb Bool.eqb];
    rewrite ?(Hflags _ F1), ?(Hflags _ F2), ?(Hflags _ F3),
            ?(Hnum _ N1), ?(Hnum _ N2), ?(Hnum _ N3);
    unfold found_or_none;
    repeat match goal with
           | |- context [match ?l with [] => _ | _ :: _ => _ end] => destruct l
           end; reflexivity.
Qed.

(** X5.  Target and parameters agree: when the parameters hold files, the
    target is the first of them; when they hold no file but URLs, it is
    the first URL; when they hold neither but IP addresses, it is the
    first address. *)
Theorem target_is_first_parameter (now text : string) :
  let c := parse_command now text in
  (forall f rest,
     param "files" (parameters c) = Some (PList (f :: rest)) -> target c = f)
  /\ (param "files" (parameters c) = None ->
      forall u rest,
        param "urls" (parameters c) = Some (PList (u :: rest)) ->
        target c = u)
  /\ (param "files" (parameters c) = None ->
      param "urls" (parameters c) = None ->
      forall i rest,
        param "ip_addresses" (parameters c) = Some (PList (i :: rest)) ->
        target c = i).
Proof.
  cbv zeta. unfold parse_command.
  destruct (PyStr.strip text) as [|ch t];
    [repeat split; intros; discriminate|].
  set (s := String ch t).
  destruct (_identify_command_type s) as [ct ag].
  destruct (_extract_parameters s) as [ps|e] eqn:Hps;
    [|repeat split; intros; discriminate].
  cbn [parameters target].
  destruct (extract_parameters_lists s Hps) as [Hf [Hu Hi]].
  rewrite Hf, Hu, Hi. unfold _extract_target.
  pose proof (findall_search pattern_file_path s) as Ff.
  pose proof (findall_search pattern_url s) as Fu.
  pose proof (findall_search pattern_ip_address s) as Fi.
  change (Re.has_group pattern_file_path) with true in Ff.
  change (Re.has_group pattern_url) with false in Fu.
  change (Re.has_group pattern_ip_address) with false in Fi.
  unfold found_or_none.
  destruct (Re.search false pattern_file_path s) as [mf|].
  { destruct Ff as [r ->]. repeat split; intros; try discriminate.
    congruence. }
  rewrite Ff.
  destruct (Re.search false pattern_url s) as [mu|].
  { destruct Fu as [r ->]. repeat split; intros; try discriminate.
    congruence. }
  rewrite Fu.
  destruct (Re.search false pattern_ip_address s) as [mi|].
  { destruct Fi as [r ->]. repeat split; intros; try discriminate.
    congruence. }
  rewrite Fi. repeat split; intros; discriminate.
Qed.

Lemma target_is_first_parameter_witness :
  target (parse_command "t0" sample_request) = "data.csv"
  /\ target (parse_command "t0" "fetch http://x.org/a at 10.0.0.1")
     = "http://x.org/a"
  /\ target (parse_command "t0" "ping 10.0.0.1 and 10.0.0.2") = "10.0.0.1".
Proof.
  split; [|split].
  - apply (proj1 (target_is_first_parameter "t0" sample_request)
             "data.csv" []).
    vm_compute. reflexivity.
  - apply (proj1 (proj2 (target_is_first_parameter "t0"
                           "fetch http://x.org/a at 10.0.0.1"))
             eq_refl "http://x.org/a" []).
    vm_compute. reflexivity.
  - apply (proj2 (proj2 (target_is_first_parameter "t0"
                           "ping 10.0.0.1 and 10.0.0.2"))
             eq_refl eq_refl "10.0.0.1" ["10.0.0.2"]).
    vm_compute. reflexivity.
Defined.

End TargetAndParameters.

(** ** The capability registry: discovery, reload, routing *)

Section RegistryMore.

Lemma lookup_assign_same (A : Type) (name : string) (v : A)
  (l : list (string * A)) :
  lookup name (assign name v l) = Some v.
Proof.
  induction l as [|[k x] l IH]; cbn [assign lookup].
  - now rewrite String.eqb_refl.
  - destruct (String.eqb k name) eqn:E; cbn [lookup]; rewrite E;
      [reflexivity|exact IH].
Qed.

Lemma lookup_assign_other (A : Type) (name k : string) (v : A)
  (l : list (string * A)) :
  k <> name -> lookup name (assign k v l) = lookup name l.
Proof.
  intros Hne. induction l as [|[k' x] l IH]; cbn [assign lookup].
  - destruct (String.eqb_spec k name); [contradiction|reflexivity].
  - destruct (String.eqb_spec k' k) as [->|Hk]; cbn [lookup].
    + destruct (String.eqb_spec k name); [contradiction|reflexivity].
    + destruct (String.eqb k' name); [reflexivity|exact IH].
Qed.

Lemma lookup_remove_same (A : Type) (name : string) (l : list (string * A)) :
  lookup name (remove name l) = None.
Proof.
  unfold remove. induction l as [|[k x] l IH]; [reflexivity|].
  cbn [filter fst]. destruct (String.eqb k name) eqn:E; cbn [negb];
    [exact IH|]. cbn [lookup]. now rewrite E.
Qed.

Lemma lookup_remove_other (A : Type) (name k : string)
  (l : list (string * A)) :
  k <> name -> lookup name (remove k l) = lookup name l.
Proof.
  intros Hne. unfold remove. induction l as [|[k' x] l IH]; [reflexivity|].
  cbn [filter fst lookup].
  destruct (String.eqb_spec k' k) as [->|Hk]; cbn [negb].
  - destruct (String.eqb_spec k name); [contradiction|exact IH].
  - cbn [lookup]. destruct (String.eqb k' name); [reflexivity|exact IH].
Qed.

Lemma load_agent_lookup (load : agent_loader) (o : Orchestrator)
  (agent_name class_name name : string) :
  lookup name (agents (_load_agent load o agent_name class_name))
  = if String.eqb agent_name name
    then match load (module_of agent_name) class_name with
         | Ok h => Some h
         | Raise _ => lookup name (agents o)
         end
    else lookup name (agents o).
Proof.
  unfold _load_agent, module_of.
  destruct (load _ class_name) as [h|e]; cbn [agents].
  - destruct (String.eqb_spec agent_name name) as [->|Hne].
    + apply lookup_assign_same.
    + now apply lookup_assign_other.
  - now destruct (String.eqb agent_name name).
Qed.

Lemma load_agent_plugins (load : agent_loader) (o : Orchestrator)
  (agent_name class_name : string) :
  plugins (_load_agent load o agent_name class_name) = plugins o.
Proof.
  unfold _load_agent. now destruct (load _ class_name).
Qed.

Lemma load_agents_lookup (load : agent_loader) (o : Orchestrator)
  (name : string) :
  lookup name (agents (load_agents load o))
  = match lookup name builtin_agents with
    | Some class_name =>
        match load (module_of name) class_name with
        | Ok h => Some h
        | Raise _ => lookup name (agents o)
        end
    | None => lookup name (agents o)
    end.
Proof.
  unfold load_agents. rewrite !load_agent_lookup.
  unfold builtin_agents. cbn [lookup].
  repeat match goal with
         | |- context [String.eqb ?a name] =>
             destruct (String.eqb_spec a name) as [<-|?]
         end;
    cbv [String.eqb Ascii.eqb Bool.eqb];
    try reflexivity;
    repeat match goal with
           | |- context [match ?x with Ok _ => _ | Raise _ => _ end] =>
               destruct x
           end; reflexivity.
Qed.

Lemma load_plugin_agents (load : plugin_loader) (o : Orchestrator)
  (plugin_file : string) :
  agents (_load_plugin load o plugin_file) = agents o.
Proof.
  unfold _load_plugin. now destruct (load plugin_file) as [[p|]|].
Qed.

Lemma load_plugins_agents (load : plugin_loader) (files : list string)
  (o : Orchestrator) :
  agents (load_plugins load files o) = agents o.
Proof.
  unfold load_plugins. revert o.
  induction files as [|f files IH]; intros o; [reflexivity|].
  cbn [fold_left]. rewrite IH.
  destruct (String.eqb f "__init__.py"); [reflexivity|].
  apply load_plugin_agents.
Qed.

(** X6.  What discovery registers at start-up: a name is registered
    exactly when it is one of the six names [load_agents] asks for and
    loading its module and class succeeds, and it is then bound to the
    handler loaded; a failure of one agent leaves the others as they
    are, and no plugin file has any bearing on the agents. *)
Theorem startup_agents (aload : agent_loader) (pload : plugin_loader)
  (files : list string) (name : string) :
  lookup name (agents (init aload pload files))
  = match lookup name builtin_agents with
    | Some class_name =>
        match aload (module_of name) class_name with
        | Ok h => Some h
        | Raise _ => None
        end
    | None => None
    end.
Proof.
  unfold init. rewrite load_plugins_agents, load_agents_lookup.
  reflexivity.
Qed.

Lemma no_builtin_route (o : Orchestrator) (c : Command) :
  lookup (agent c) (agents o) = None ->
  lookup "general" (agents o) = None ->
  execute_command o c = plugin_or_nothing o c.
Proof.
  intros H1 H2. unfold execute_command, plugin_or_nothing, matching_plugin.
  rewrite H1, H2. reflexivity.
Qed.

(** X7.  On the registry built at start-up a command whose agent is
    "codegen", "dataminer", "orchestrator" or "unknown" never reaches a
    built-in handler, whatever modules load: discovery registers the
    names "codegen_agent" and "data_miner" and never "general", so such
    a command is served by the first matching plugin or ends in the
    message "No agent or plugin found". *)
Theorem startup_registry_leaves_to_plugins (aload : agent_loader)
  (pload : plugin_loader) (files : list string) (c : Command) :
  In (agent c) ["codegen"; "dataminer"; "orchestrator"; "unknown"] ->
  execute_command (init aload pload files) c
  = plugin_or_nothing (init aload pload files) c.
Proof.
  intros Hin. apply no_builtin_route.
  - unfold init. rewrite load_plugins_agents, load_agents_lookup.
    cbn in Hin.
    repeat (destruct Hin as [<-|Hin]; [reflexivity|]). contradiction.
  - unfold init. rewrite load_plugins_agents, load_agents_lookup.
    reflexivity.
Qed.

Lemma startup_registry_leaves_to_plugins_witness :
  let c := parse_command "t0" "create a flask app" in
  agent c = "codegen"
  /\ execute_command (init (fun _ _ => Ok stub_secops) hello_only []) c
     = ("❌ No agent or plugin found to handle: generate_web_app", []).
Proof.
  split; [vm_compute; reflexivity|].
  rewrite (@startup_registry_leaves_to_plugins (fun _ _ => Ok stub_secops)
             hello_only [] (parse_command "t0" "create a flask app"))
    by (vm_compute; tauto).
  vm_compute. reflexivity.
Defined.

Lemma load_plugin_lookup (load : plugin_loader) (o : Orchestrator)
  (plugin_file name : string) :
  lookup name (plugins (_load_plugin load o plugin_file))
  = if String.eqb (stem plugin_file) name
    then match load plugin_file with
         | Ok (Some p) => Some p
         | _ => lookup name (plugins o)
         end
    else lookup name (plugins o).
Proof.
  unfold _load_plugin.
  destruct (load plugin_file) as [[p|]|e]; cbn [plugins];
    try (now destruct (String.eqb (stem plugin_file) name)).
  destruct (String.eqb_spec (stem plugin_file) name) as [<-|Hne].
  - apply lookup_assign_same.
  - now apply lookup_assign_other.
Qed.

Lemma load_plugins_from (load : plugin_loader) (plugin_file : string)
  (p : plugin) (files : list string) :
  plugin_file <> "__init__.py" ->
  load plugin_file = Ok (Some p) ->
  (forall other,
     In other files -> stem other = stem plugin_file -> other = plugin_file) ->
  forall o,
    In plugin_file files \/ lookup (stem plugin_file) (plugins o) = Some p ->
    lookup (stem plugin_file) (plugins (load_plugins load files o)) = Some p.
Proof.
  intros Hinit Hload. unfold load_plugins.
  induction files as [|f files IH]; intros Hstem o Hor; cbn [fold_left].
  - destruct Hor as [[]|H]. exact H.
  - apply IH.
    + intros other Hin. apply Hstem. now right.
    + destruct (String.eqb_spec f plugin_file) as [->|Hne].
      * right.
        destruct (String.eqb_spec plugin_file "__init__.py");
          [contradiction|].
        rewrite load_plugin_lookup, String.eqb_refl, Hload. reflexivity.
      * destruct Hor as [[H|H]|H]; [contradiction|now left|].
        right. destruct (String.eqb f "__init__.py"); [exact H|].
        rewrite load_plugin_lookup.
        destruct (String.eqb_spec (stem f) (stem plugin_file)) as [E|_];
          [|exact H].
        elim Hne. apply Hstem; [now left|exact E].
Qed.

(** X8.  A plugin file that loads is registered under its stem whatever
    happens with the other files of the directory (files that raise,
    files without a class [Plugin]), provided no other file listed has
    the same stem. *)
Theorem good_plugin_is_registered (load : plugin_loader)
  (files : list string) (o : Orchestrator) (plugin_file : string)
  (p : plugin) :
  In plugin_file files ->
  plugin_file <> "__init__.py" ->
  load plugin_file = Ok (Some p) ->
  (forall other,
     In other files -> stem other = stem plugin_file -> other = plugin_file) ->
  lookup (stem plugin_file) (plugins (load_plugins load files o)) = Some p.
Proof.
  intros Hin Hinit Hload Hstem.
  apply load_plugins_from; auto.
Qed.

Lemma good_plugin_is_registered_witness :
  stem "hello_world.py" = "hello_world"
  /\ lookup "hello_world"
       (plugins (load_plugins hello_only sample_directory
                   (MkOrchestrator [] [])))
     = Some hello_world.
Proof.
  split; [reflexivity|].
  apply (@good_plugin_is_registered hello_only sample_directory
           (MkOrchestrator [] []) "hello_world.py" hello_world).
  - vm_compute. tauto.
  - discriminate.
  - reflexivity.
  - intros other Hin.
    repeat (destruct Hin as [<-|Hin]; [vm_compute; congruence|]).
    contradiction.
Defined.

(** X9.  [load_plugins] never loads the file __init__.py: the registry
    it builds does not depend on what loading that file would give. *)
Theorem init_file_is_never_loaded (load load' : plugin_loader)
  (files : list string) (o : Orchestrator) :
  (forall plugin_file,
     plugin_file <> "__init__.py" -> load plugin_file = load' plugin_file) ->
  load_plugins load files o = load_plugins load' files o.
Proof.
  intros Hagree. unfold load_plugins. revert o.
  induction files as [|f files IH]; intros o; [reflexivity|].
  cbn [fold_left].
  destruct (String.eqb_spec f "__init__.py") as [_|Hne]; [apply IH|].
  unfold _load_plugin. rewrite (Hagree f Hne). apply IH.
Qed.

Lemma init_file_is_never_loaded_witness :
  load_plugins hello_only sample_directory (MkOrchestrator [] [])
  = load_plugins hello_with_init sample_directory (MkOrchestrator [] [])
  /\ get_available_plugins
       (load_plugins hello_with_init sample_directory (MkOrchestrator [] []))
     = ["hello_world"].
Proof.
  split; [|reflexivity].
  apply (@init_file_is_never_loaded hello_only hello_with_init
           sample_directory (MkOrchestrator [] [])).
  intros plugin_file Hne. unfold hello_with_init.
  destruct (String.eqb_spec plugin_file "__init__.py");
    [contradiction|reflexivity].
Defined.

Lemma title_differs (name class_name : string) :
  lookup name builtin_agents = Some class_name ->
  (PyStr.title name ++ "Agent")%string <> class_name.
Proof.
  unfold builtin_agents. cbn [lookup].
  repeat match goal with
         | |- context [String.eqb ?a name] =>
             destruct (String.eqb_spec a name) as [<-|?]
         end;
    intros H; try discriminate H;
    injection H as <-; vm_compute; discriminate.
Qed.

(** X10.  [reload_agent] on a built-in agent removes it and does not
    bring it back, yet returns [True]: the class name it asks for, the
    title form of the agent name followed by "Agent", is none of the
    class names [load_agents] uses (for "secops" it is "SecopsAgent", not
    "SecOpsAgent"), so when the module offers no other class the load
    fails.  The other agents are left as they are. *)
Theorem reload_agent_drops_builtin (load : agent_loader) (o : Orchestrator)
  (name class_name : string) :
  lookup name builtin_agents = Some class_name ->
  (forall c, c <> class_name -> exists e, load (module_of name) c = Raise e) ->
  fst (reload_agent load o name) = true
  /\ lookup name (agents (snd (reload_agent load o name))) = None
  /\ forall other,
       other <> name ->
       lookup other (agents (snd (reload_agent load o name)))
       = lookup other (agents o).
Proof.
  intros Hb Hload. unfold reload_agent. cbn [fst snd].
  destruct (Hload _ (title_differs name Hb)) as [e He].
  split; [reflexivity|].
  split; [|intros other Hne]; rewrite load_agent_lookup, He; cbn [agents].
  - rewrite String.eqb_refl. apply lookup_remove_same.
  - destruct (String.eqb_spec name other) as [E|_]; [now elim Hne|].
    apply lookup_remove_other. congruence.
Qed.

Lemma reload_agent_drops_builtin_witness :
  let o := init secops_only hello_only [] in
  lookup "secops" (agents o) = Some stub_secops
  /\ fst (reload_agent secops_only o "secops") = true
  /\ lookup "secops" (agents (snd (reload_agent secops_only o "secops")))
     = None.
Proof.
  split; [reflexivity|].
  assert (H : forall c, c <> "SecOpsAgent" ->
              exists e, secops_only (module_of "secops") c = Raise e).
  { intros c Hc. unfold secops_only.
    destruct (String.eqb_spec c "SecOpsAgent") as [->|_]; [now elim Hc|].
    rewrite andb_false_r. eexists. reflexivity. }
  destruct (@reload_agent_drops_builtin secops_only
              (init secops_only hello_only []) "secops" "SecOpsAgent"
              eq_refl H) as [H1 [H2 _]].
  split; [exact H1|exact H2].
Defined.

Lemma contains_empty (s : string) : PyStr.contains EmptyString s = true.
Proof. destruct s; reflexivity. Qed.

Lemma plugin_matches_empty_target (plugin_name command_type : string) :
  _plugin_matches plugin_name command_type EmptyString = true.
Proof.
  unfold _plugin_matches. cbn [PyStr.lower].
  rewrite contains_empty. apply orb_true_iff. left.
  apply orb_true_r.
Qed.

(** X11.  A command with an empty target whose agent is not registered is
    served by the first plugin of the registry, whatever its name: the
    empty string is a substring of every plugin name. *)
Theorem empty_target_runs_first_plugin (o : Orchestrator) (c : Command)
  (plugin_name : string) (p : plugin) (rest : list (string * plugin)) :
  lookup (agent c) (agents o) = None ->
  target c = EmptyString ->
  plugins o = (plugin_name, p) :: rest ->
  execute_command o c
  = (caught (p EmptyString), [PluginRun plugin_name EmptyString]).
Proof.
  intros Hl Ht Hp. unfold execute_command. rewrite Hl, Hp, Ht.
  cbn [find fst]. now rewrite plugin_matches_empty_target.
Qed.

Lemma empty_target_runs_first_plugin_witness :
  execute_command registry_with_rival (parse_command "t0" " ")
  = ("Hello, ! This is the Hello World plugin speaking.",
     [PluginRun "hello_world" EmptyString]).
Proof.
  apply (@empty_target_runs_first_plugin registry_with_rival
           (parse_command "t0" " ") "hello_world" hello_world
           [("port_scan", hello_world)]); reflexivity.
Defined.

(** X12.  [execute_command] runs at most one handler or plugin and
    returns what it gave (its result, or the error string made from its
    exception).  A handler run is the one registered under the agent of
    the command or under "general", a plugin run is a registered one that
    matches and is run only when the agent is not registered; both
    receive the target of the command.  When nothing is run the result
    is the message "No agent or plugin found to handle" with the command
    type. *)
Theorem execute_command_runs_one (o : Orchestrator) (c : Command) :
  match snd (execute_command o c) with
  | [] =>
      fst (execute_command o c)
      = ("❌ No agent or plugin found to handle: " ++ command_type c)%string
  | [AgentExecuted name t ps] =>
      t = target c /\ ps = parameters c
      /\ (name = agent c \/ name = "general")
      /\ exists h,
           lookup name (agents o) = Some h
           /\ fst (execute_command o c) = caught (h t ps)
  | [PluginRun name t] =>
      t = target c
      /\ lookup (agent c) (agents o) = None
      /\ _plugin_matches name (command_type c) t = true
      /\ exists p,
           In (name, p) (plugins o)
           /\ fst (execute_command o c) = caught (p t)
  | _ => False
  end.
Proof.
  unfold execute_command.
  destruct (lookup (agent c) (agents o)) as [h|] eqn:Hl; cbn [fst snd].
  { repeat split; [now left|]. now exists h. }
  destruct (find _ (plugins o)) as [[n p]|] eqn:Hf; cbn [fst snd].
  { apply find_some in Hf as [Hin Hm]. cbn [fst] in Hm.
    repeat split; [exact Hm|]. now exists p. }
  destruct (lookup "general" (agents o)) as [h|] eqn:Hg; cbn [fst snd].
  { repeat split; [now right|]. now exists h. }
  reflexivity.
Qed.

End RegistryMore.

(** ** The audit log: persistence, reading back, deletion, statistics *)

Section AuditLogMore.







(** X15.  When the log cannot be persisted (the encryption manager
    fails, or the memory file cannot be written), [add_entry] still
    returns the id and appends the entry to the list in memory, but the
    files are left untouched: what [load_memory] would read is what it
    would have read before the call, so the entry does not survive a
    restart, and the caller is not told. *)
Theorem unsaved_entry_lives_in_memory_only (now : Clock) (m : MemoryEngine)
  (command result_text agent : string) (success : bool)
  (metadata : option (list (string * value))) :
  (forall s, exists msg, encrypt (encryption m) s = Raise msg)
  \/ PyStr.mem memory_file (read_only (files m)) = true ->
  let id := fst (add_entry now m command result_text agent success metadata) in
  let m' := snd (add_entry now m command result_text agent success metadata) in
  id = Some (generate_id now m)
  /\ memory_data m'
     = memory_data m
       ++ [new_entry now m command result_text agent success metadata]
  /\ files m' = files m
  /\ load_memory (encryption m') (files m')
     = load_memory (encryption m) (files m).
Proof.
  intros H. cbv zeta. unfold add_entry. cbn [fst snd].
  fold (new_entry now m command result_text agent success metadata).
  set (m1 := set_data m _).
  split; [reflexivity|].
  split; [now rewrite save_memory_data|].
  assert (Hs : save_memory m1 = m1).
  { unfold save_memory. destruct H as [H|H].
    - destruct (H (dumps (VList (memory_data m1)))) as [msg Hm].
      change (encryption m1) with (encryption m). now rewrite Hm.
    - destruct (encrypt (encryption m1) _); [|reflexivity].
      unfold write_file. change (files m1) with (files m).
      now rewrite H. }
  rewrite Hs. split; reflexivity.
Qed.

Lemma unsaved_entry_lives_in_memory_only_witness :
  let m := MkMemory broken_encryption [] (MkFiles [] []) in
  let m' := snd (add_entry noon m "first" "ok" "secops" true None) in
  fst (add_entry noon m "first" "ok" "secops" true None)
  = Some "mem_1700000000000_0"
  /\ List.length (memory_data m') = 1
  /\ files m' = MkFiles [] []
  /\ load_memory (encryption m') (files m') = VList [].
Proof.
  destruct (@unsaved_entry_lives_in_memory_only noon
              (MkMemory broken_encryption [] (MkFiles [] []))
              "first" "ok" "secops" true None)
    as [H0 [H1 [H2 H3]]].
  - left. intros s. eexists. reflexivity.
  - split; [exact H0|]. split; [reflexivity|].
    split; [exact H2|exact H3].
Defined.

Lemma get_recent_entries_slice (m : MemoryEngine) (limit : Z) :
  get_recent_entries m limit = slice_from (- limit) (memory_data m).
Proof.
  unfold get_recent_entries.
  destruct (memory_data m) as [|entry rest]; [|reflexivity].
  unfold slice_from. now rewrite skipn_nil.
Qed.

(** X16.  For a limit of at least 1, [get_recent_entries] returns the
    last entries of the log in insertion order: the result is a suffix of
    the log, of length the smaller of the limit and the length of the
    log. *)
Theorem recent_entries_positive_limit (m : MemoryEngine) (limit : Z) :
  (0 < limit)%Z ->
  exists older,
    memory_data m = older ++ get_recent_entries m limit
    /\ List.length (get_recent_entries m limit)
       = Nat.min (Z.to_nat limit) (List.length (memory_data m)).
Proof.
  intros Hl. rewrite get_recent_entries_slice. unfold slice_from.
  destruct (Z.ltb_spec (- limit) 0) as [_|Hge]; [|lia].
  set (start := Z.to_nat _).
  exists (firstn start (memory_data m)). split.
  - now rewrite firstn_skipn.
  - rewrite length_skipn. unfold start. lia.
Qed.

Lemma recent_entries_positive_limit_witness :
  exists older,
    memory_data two_entries = older ++ get_recent_entries two_entries 1
    /\ List.length (get_recent_entries two_entries 1) = 1.
Proof.
  apply (@recent_entries_positive_limit two_entries 1). lia.
Defined.

(** X17.  For a negative limit [get_recent_entries] does not return an
    empty list: it returns the log without its first [-limit] entries
    (the slice from index [-limit] on). *)
Theorem recent_entries_negative_limit (m : MemoryEngine) (limit : Z) :
  (limit < 0)%Z ->
  get_recent_entries m limit = skipn (Z.to_nat (- limit)) (memory_data m).
Proof.
  intros Hl. rewrite get_recent_entries_slice. unfold slice_from.
  destruct (Z.ltb_spec (- limit) 0) as [Hlt|_]; [lia|].
  destruct (Z.le_ge_cases (- limit) (Z.of_nat (List.length (memory_data m))))
    as [Hle|Hge].
  - now rewrite Z.min_l by exact Hle.
  - rewrite Z.min_r by lia. rewrite Nat2Z.id.
    rewrite skipn_all. symmetry. apply skipn_all2. lia.
Qed.

Lemma recent_entries_negative_limit_witness :
  List.length (memory_data two_entries) = 2
  /\ get_recent_entries two_entries (-1)
     = skipn (Z.to_nat (- -1)) (memory_data two_entries)
  /\ List.length (get_recent_entries two_entries (-1)) = 1.
Proof.
  split; [reflexivity|]. split; [|reflexivity].
  apply (@recent_entries_negative_limit two_entries (-1)). lia.
Defined.

Lemma get_entry_loop_skips (entry_id : string) (older rest : list value) :
  Forall (fun e => is_dict e = true /\ has_id entry_id e = false) older ->
  get_entry_loop entry_id (older ++ rest) = get_entry_loop entry_id rest.
Proof.
  induction 1 as [|e older [Hd Hi] _ IH]; [reflexivity|].
  cbn [app get_entry_loop]. unfold has_id in Hi.
  destruct e; try discriminate Hd. cbn [get bind] in *.
  now rewrite Hi.
Qed.

(** X18.  Right after [add_entry] the entry can be read back: the call
    returns the id it generated, [get_recent_entries(1)] is the new entry
    alone, and [get_entry] with the id returned gives the new entry,
    provided no older entry (all of them dictionaries) carries the same
    id. *)
Theorem added_entry_is_found (now : Clock) (m : MemoryEngine)
  (command result_text agent : string) (success : bool)
  (metadata : option (list (string * value))) :
  let id := generate_id now m in
  let entry := new_entry now m command result_text agent success metadata in
  let m' := snd (add_entry now m command result_text agent success metadata) in
  fst (add_entry now m command result_text agent success metadata) = Some id
  /\ get_recent_entries m' 1 = [entry]
  /\ (Forall (fun e => is_dict e = true /\ has_id id e = false)
             (memory_data m) ->
      get_entry m' id = Ok (Some entry)).
Proof.
  cbv zeta. unfold add_entry. cbn [fst snd].
  fold (new_entry now m command result_text agent success metadata).
  set (entry := new_entry _ _ _ _ _ _ _).
  split; [reflexivity|]. split.
  - rewrite get_recent_entries_slice, save_memory_data. cbn [set_data memory_data].
    unfold slice_from. rewrite length_app. cbn [List.length].
    change (Z.ltb (Z.opp 1) 0) with true. cbv iota.
    replace (Z.to_nat _) with (List.length (memory_data m) + 0) by lia.
    now rewrite skipn_app, Nat.add_0_r, skipn_all, Nat.sub_diag.
  - intros Hold. unfold get_entry. rewrite save_memory_data.
    cbn [set_data memory_data]. rewrite (@get_entry_loop_skips _ _ [entry] Hold).
    cbn [get_entry_loop]. unfold entry, new_entry. cbn [get dict_get bind].
    cbn [String.eqb Ascii.eqb Bool.eqb is_str].
    now rewrite String.eqb_refl.
Qed.

Lemma added_entry_is_found_witness :
  let id := generate_id noon two_entries in
  let m' := snd (add_entry noon two_entries "third" "ok" "secops" true None) in
  id = "mem_1700000000000_2"
  /\ get_entry m' id
     = Ok (Some (new_entry noon two_entries "third" "ok" "secops" true None)).
Proof.
  split; [reflexivity|].
  apply (proj2 (proj2 (@added_entry_is_found noon two_entries
                         "third" "ok" "secops" true None))).
  repeat constructor.
Defined.

Lemma delete_loop_removes_first (entry_id : string) (l l' : list value) :
  delete_loop entry_id l = Ok (Some l') ->
  exists before entry after,
    l = before ++ entry :: after
    /\ has_id entry_id entry = true
    /\ Forall (fun e => has_id entry_id e = false) before
    /\ l' = before ++ after.
Proof.
  revert l'. induction l as [|e l IH]; intros l'; cbn [delete_loop];
    [discriminate|].
  destruct (get e "id" VNone) as [v|msg] eqn:Hg; cbn [bind]; [|discriminate].
  destruct (is_str v entry_id) eqn:Hi.
  - intros H. injection H as <-. exists [], e, l.
    repeat split; [|constructor]. unfold has_id. now rewrite Hg.
  - destruct (delete_loop entry_id l) as [[r|]|msg]; cbn [bind];
      try discriminate.
    intros H. injection H as <-.
    destruct (IH r eq_refl) as [before [entry [after [-> [H1 [H2 ->]]]]]].
    exists (e :: before), entry, after. repeat split; [exact H1|].
    constructor; [|exact H2]. unfold has_id. now rewrite Hg.
Qed.

(** X19.  When [delete_entry] returns [True], exactly one entry is gone:
    the first one, in insertion order, whose id is the one given; the
    entries before and after it keep their order.  When it returns
    [False] nothing has changed, neither the log nor the files. *)
Theorem delete_entry_removes_first (m : MemoryEngine) (entry_id : string) :
  (fst (delete_entry m entry_id) = true ->
   exists before entry after,
     memory_data m = before ++ entry :: after
     /\ has_id entry_id entry = true
     /\ Forall (fun e => has_id entry_id e = false) before
     /\ memory_data (snd (delete_entry m entry_id)) = before ++ after)
  /\ (fst (delete_entry m entry_id) = false ->
      snd (delete_entry m entry_id) = m).
Proof.
  unfold delete_entry.
  destruct (delete_loop entry_id (memory_data m)) as [[data|]|msg] eqn:Hd;
    cbn [fst snd]; split; try discriminate; try reflexivity.
  intros _. rewrite save_memory_data. cbn [set_data memory_data].
  exact (delete_loop_removes_first _ _ Hd).
Qed.

Lemma delete_entry_removes_first_witness :
  let m := snd (run_ops empty_log three_adds) in
  fst (delete_entry m "mem_1700000000000_1") = true
  /\ exists before entry after,
       memory_data m = before ++ entry :: after
       /\ has_id "mem_1700000000000_1" entry = true
       /\ Forall (fun e => has_id "mem_1700000000000_1" e = false) before
       /\ memory_data (snd (delete_entry m "mem_1700000000000_1"))
          = before ++ after.
Proof.
  split; [reflexivity|].
  apply (proj1 (@delete_entry_removes_first
                  (snd (run_ops empty_log three_adds))
                  "mem_1700000000000_1")).
  reflexivity.
Defined.

Lemma by_agent_loop_positive (agent : string) (limit : Z)
  (entries : list value) :
  forallb is_dict entries = true ->
  forall results,
    (Z.of_nat (List.length results) < limit)%Z ->
    by_agent_loop agent limit entries results =
      Ok (results
          ++ firstn (Z.to_nat limit - List.length results)
                    (filter (has_agent agent) entries)).
Proof.
  induction entries as [|entry rest IH]; intros Hd results Hlt;
    cbn [by_agent_loop filter].
  - now rewrite firstn_nil, app_nil_r.
  - cbn [forallb] in Hd. apply andb_true_iff in Hd as [He Hrest].
    destruct entry; try discriminate He. unfold has_agent.
    cbn [get bind].
    destruct (is_str _ agent).
    + rewrite length_app. cbn [List.length].
      destruct (Z.to_nat limit - List.length results) as [|k] eqn:Hk; [lia|].
      cbn [firstn].
      destruct (Z.leb_spec limit (Z.of_nat (List.length results + 1))).
      * replace k with 0 by lia. reflexivity.
      * rewrite (IH Hrest) by (rewrite length_app; cbn [List.length]; lia).
        rewrite length_app. cbn [List.length]. rewrite <- app_assoc.
        cbn [app]. repeat f_equal. lia.
    + apply (IH Hrest). exact Hlt.
Qed.

(** X20.  For a limit of at least 1, on a log whose entries are
    dictionaries, [get_entries_by_agent] returns the first [limit]
    entries of that agent met from the newest entry backwards. *)
Theorem entries_by_agent_positive_limit (m : MemoryEngine) (agent : string)
  (limit : Z) :
  (1 <= limit)%Z ->
  forallb is_dict (memory_data m) = true ->
  get_entries_by_agent m agent limit =
    Ok (firstn (Z.to_nat limit)
               (filter (has_agent agent) (rev (memory_data m)))).
Proof.
  intros Hl Hd. unfold get_entries_by_agent.
  rewrite by_agent_loop_positive.
  - cbn [app List.length]. now rewrite Nat.sub_0_r.
  - rewrite forallb_forall in *. intros x Hx. apply Hd. now apply in_rev.
  - cbn [List.length]. lia.
Qed.

Lemma entries_by_agent_positive_limit_witness :
  get_entries_by_agent (snd (run_ops empty_log three_adds)) "secops" 2 =
    Ok (firstn (Z.to_nat 2)
          (filter (has_agent "secops")
             (rev (memory_data (snd (run_ops empty_log three_adds))))))
  /\ List.length
       (firstn (Z.to_nat 2)
          (filter (has_agent "secops")
             (rev (memory_data (snd (run_ops empty_log three_adds))))))
     = 2.
Proof.
  split; [|reflexivity].
  apply (@entries_by_agent_positive_limit
           (snd (run_ops empty_log three_adds)) "secops" 2).
  - lia.
  - reflexivity.
Defined.



Lemma count_success_dicts (data : list value) :
  forallb is_dict data = true ->
  exists n, count_success data = Ok n /\ n <= List.length data.
Proof.
  induction data as [|entry rest IH]; intros Hd.
  - exists 0. split; [reflexivity|apply Nat.le_refl].
  - cbn [forallb] in Hd. apply andb_true_iff in Hd as [He Hrest].
    destruct (IH Hrest) as [n [Hn Hle]].
    destruct entry; try discriminate He.
    cbn [count_success get bind]. rewrite Hn. cbn [bind].
    destruct (truthy _); eexists; (split; [reflexivity|]);
      cbn [List.length]; lia.
Qed.

Lemma counted_count_up (k : key) (v : value)
  (agents : list (key * value * nat)) :
  counted (count_up k v agents) = S (counted agents).
Proof.
  unfold counted.
  induction agents as [|[[k' v'] n] agents IH]; [reflexivity|].
  cbn [count_up]. destruct (key_eqb k' k); cbn [fold_right snd].
  - reflexivity.
  - rewrite IH. lia.
Qed.

Lemma count_agents_records (data : list value) :
  forallb record_like data = true ->
  forall acc,
    exists agents,
      count_agents data acc = Ok agents
      /\ counted agents = counted acc + List.length data.
Proof.
  induction data as [|entry rest IH]; intros Hd acc.
  - exists acc. split; [reflexivity|]. cbn [List.length]. lia.
  - cbn [forallb] in Hd. apply andb_true_iff in Hd as [He Hrest].
    destruct entry as [| | | | |kv]; try discriminate He.
    cbn [record_like] in He. apply andb_true_iff in He as [_ Ha].
    cbn [count_agents get bind].
    assert (Hk : exists k,
               hash_key (match dict_get "agent" kv with
                         | Some v => v
                         | None => VStr "unknown"
                         end) = Ok k).
    { destruct (dict_get "agent" kv) as [[]|]; try discriminate Ha;
        eexists; reflexivity. }
    destruct Hk as [k ->]. cbn [bind].
    destruct (IH Hrest (count_up k
                          (match dict_get "agent" kv with
                           | Some v => v
                           | None => VStr "unknown"
                           end) acc)) as [agents [H1 H2]].
    exists agents. split; [exact H1|].
    rewrite H2, counted_count_up. cbn [List.length]. lia.
Qed.

Lemma record_like_is_dict (data : list value) :
  forallb record_like data = true -> forallb is_dict data = true.
Proof.
  rewrite !forallb_forall. intros H x Hx. specialize (H x Hx).
  now destruct x.
Qed.

Lemma subscript_timestamp_record (entry : value) :
  record_like entry = true -> exists t, subscript_timestamp entry = Ok t.
Proof.
  destruct entry as [| | | | |kv]; try discriminate.
  cbn [record_like subscript_timestamp]. intros H.
  apply andb_true_iff in H as [H _].
  destruct (dict_get "timestamp" kv); [|discriminate]. eexists. reflexivity.
Qed.

Lemma statistics_of_records (data : list value) :
  forallb record_like data = true ->
  exists n ag q o o',
    count_success data = Ok n
    /\ n <= List.length data
    /\ counted ag = List.length data
    /\ statistics_of data
       = Ok (MkStatistics (List.length data) n (List.length data - n)
               q ag o o').
Proof.
  intros Hr. unfold statistics_of.
  destruct (count_success_dicts _ (record_like_is_dict _ Hr)) as [n [Hn Hle]].
  destruct (count_agents_records _ Hr []) as [ag [Ha Hag]].
  rewrite Hn, Ha. cbn [bind].
  assert (Hq : exists q,
             (if Nat.ltb 0 (List.length data)
              then q <- truediv n (List.length data) ;; Ok (q * 100)%float
              else Ok 0%float) = Ok q).
  { destruct data; cbn; eexists; reflexivity. }
  destruct Hq as [q ->]. cbn [bind].
  assert (Ho : exists o,
             match data with
             | [] => Ok None
             | first :: _ => t <- subscript_timestamp first ;; Ok (Some t)
             end = Ok o).
  { destruct data as [|first rest]; [eexists; reflexivity|].
    cbn [forallb] in Hr. apply andb_true_iff in Hr as [Hf _].
    destruct (subscript_timestamp_record _ Hf) as [t ->].
    eexists. reflexivity. }
  destruct Ho as [o ->]. cbn [bind].
  assert (Hl : exists o,
             match rev data with
             | [] => Ok None
             | last :: _ => t <- subscript_timestamp last ;; Ok (Some t)
             end = Ok o).
  { destruct (rev data) as [|last rest] eqn:Hrev; [eexists; reflexivity|].
    assert (Hin : In last data).
    { apply in_rev. rewrite Hrev. now left. }
    rewrite forallb_forall in Hr.
    destruct (subscript_timestamp_record _ (Hr _ Hin)) as [t ->].
    eexists. reflexivity. }
  destruct Hl as [o' ->]. cbn [bind].
  exists n, ag, q, o, o'. repeat split; [exact Hle|].
  rewrite Hag. reflexivity.
Qed.

(** X22.  On a log whose entries are dictionaries with a timestamp and
    an agent that can be a dictionary key (as every entry [add_entry]
    writes is), [get_statistics] does not fall back on the empty
    dictionary, and its counts are consistent: total_entries is the
    length of the log, successful_entries + failed_entries =
    total_entries, and the counts per agent sum to total_entries. *)
Theorem statistics_counts_add_up (m : MemoryEngine) :
  forallb record_like (memory_data m) = true ->
  exists s,
    get_statistics m = Some s
    /\ total_entries s = List.length (memory_data m)
    /\ successful_entries s + failed_entries s = total_entries s
    /\ counted (MemoryEngine.agents s) = total_entries s.
Proof.
  intros Hr. unfold get_statistics.
  destruct (statistics_of_records _ Hr)
    as [n [ag [q [o [o' [_ [Hle [Hag ->]]]]]]]].
  eexists. split; [reflexivity|].
  cbn [total_entries successful_entries failed_entries MemoryEngine.agents].
  split; [reflexivity|]. split; [lia|exact Hag].
Qed.

Lemma statistics_counts_add_up_witness :
  exists s,
    get_statistics (snd (run_ops empty_log three_adds)) = Some s
    /\ total_entries s = 3
    /\ successful_entries s + failed_entries s = total_entries s
    /\ counted (MemoryEngine.agents s) = total_entries s.
Proof.
  apply (@statistics_counts_add_up (snd (run_ops empty_log three_adds))).
  reflexivity.
Defined.

Lemma search_entries_positive_limit_witness :
  search_entries two_entries "SCAN" 1 =
    Ok (firstn (Z.to_nat 1)
          (filter (hits (PyStr.lower "SCAN")) (rev (memory_data two_entries))))
  /\ List.length
       (firstn (Z.to_nat 1)
          (filter (hits (PyStr.lower "SCAN"))
             (rev (memory_data two_entries)))) = 1.
Proof.
  split; [|reflexivity].
  apply (@search_entries_positive_limit two_entries "SCAN" 1).
  - lia.
  - repeat constructor; eexists; vm_compute; reflexivity.
Defined.

Lemma add_only_ids_unique_witness :
  fst (run_ops empty_log three_adds) =
    [ Some "mem_1700000000000_0";
      Some "mem_1700000000000_1";
      Some "mem_1700000000000_2" ]
  /\ NoDup (fst (run_ops empty_log three_adds)).
Proof.
  split; [reflexivity|].
  apply (@add_only_ids_unique three_adds empty_log). reflexivity.
Defined.

End AuditLogMore.

(** ** The text path: sessions and the callers of [process_text_command] *)

Section TextPathMore.

Lemma handle_transcription_appends (now : Clock) (p : VoicePipeline)
  (text : string) :
  let command := parse_command (now_iso now) text in
  let p' := _handle_transcription now p text in
  memory_data (memory p')
  = memory_data (memory p)
    ++ [new_entry now (memory p) text
          (fst (execute_command (orchestrator p) command))
          (agent command) true None]
  /\ dispatched p' = dispatched p ++ [command]
  /\ orchestrator p' = orchestrator p.
Proof.
  cbv zeta. unfold _handle_transcription.
  destruct (execute_command (orchestrator p) _) as [res evs].
  cbn [add_entry memory dispatched orchestrator fst].
  unfold add_entry. cbn [memory dispatched orchestrator].
  rewrite save_memory_data. repeat split.
Qed.

(** X25.  A session of direct text entry leaves one entry per text, in
    the order of the calls, after the entries the log already had: the
    entry of a text carries that text as its command, the agent of its
    parse as its agent and success set to true; the commands handed to
    [execute_command] are the parses of the texts, in order, and the
    registry is left as it was. *)
Theorem text_session_logged_in_order (p : VoicePipeline)
  (texts : list (Clock * string)) :
  exists news,
    memory_data (memory (run_texts p texts))
    = memory_data (memory p) ++ news
    /\ map (fun e => get e "command" VNone) news
       = map (fun nt => Ok (VStr (snd nt))) texts
    /\ map (fun e => get e "agent" VNone) news
       = map (fun nt => Ok (VStr (agent (parsed nt)))) texts
    /\ Forall (fun e => get e "success" VNone = Ok (VBool true)) news
    /\ dispatched (run_texts p texts) = dispatched p ++ map parsed texts
    /\ orchestrator (run_texts p texts) = orchestrator p.
Proof.
  unfold run_texts. revert p.
  induction texts as [|[now text] texts IH]; intros p; cbn [fold_left].
  - exists []. rewrite !app_nil_r. repeat split. constructor.
  - destruct (IH (process_text_command now p text))
      as [news [H1 [H2 [H3 [H4 [H5 H6]]]]]].
    unfold process_text_command in *. cbn [fst snd] in *.
    destruct (handle_transcription_appends now p text) as [E1 [E2 E3]].
    rewrite E1 in H1. rewrite E2 in H5. rewrite E3 in H6.
    eexists (_ :: news). rewrite H1, H5, <- !app_assoc. cbn [app map].
    split; [reflexivity|].
    split; [now rewrite H2|].
    split; [unfold parsed at 1; cbn [fst snd]; now rewrite H3|].
    split; [constructor; [reflexivity|exact H4]|].
    split; [reflexivity|exact H6].
Qed.

Lemma count_success_all (data : list value) :
  forallb logged_success data = true ->
  count_success data = Ok (List.length data).
Proof.
  induction data as [|entry rest IH]; [reflexivity|].
  cbn [forallb]. intros H. apply andb_true_iff in H as [He Hrest].
  cbn [count_success]. unfold logged_success in He.
  destruct (get entry "success" (VBool false)) as [v|]; [|discriminate].
  cbn [bind]. rewrite (IH Hrest). cbn [bind]. now rewrite He.
Qed.

Lemma text_entry_keeps_successes (now : Clock) (p : VoicePipeline)
  (text : string) :
  forallb record_like (memory_data (memory p)) = true ->
  forallb logged_success (memory_data (memory p)) = true ->
  forallb record_like
    (memory_data (memory (process_text_command now p text))) = true
  /\ forallb logged_success
       (memory_data (memory (process_text_command now p text))) = true.
Proof.
  intros Hr Hs. unfold process_text_command.
  destruct (handle_transcription_appends now p text) as [-> _].
  rewrite !forallb_app, Hr, Hs. split; reflexivity.
Qed.

Lemma text_session_keeps_successes (texts : list (Clock * string)) :
  forall p,
    forallb record_like (memory_data (memory p)) = true ->
    forallb logged_success (memory_data (memory p)) = true ->
    forallb record_like (memory_data (memory (run_texts p texts))) = true
    /\ forallb logged_success (memory_data (memory (run_texts p texts)))
       = true.
Proof.
  unfold run_texts.
  induction texts as [|[now text] texts IH]; intros p Hr Hs; cbn [fold_left].
  - now split.
  - cbn [fst snd].
    destruct (text_entry_keeps_successes now p text Hr Hs) as [Hr' Hs'].
    now apply IH.
Qed.

Lemma run_texts_length (texts : list (Clock * string)) :
  forall p,
    List.length (memory_data (memory (run_texts p texts)))
    = List.length (memory_data (memory p)) + List.length texts.
Proof.
  unfold run_texts.
  induction texts as [|[now text] texts IH]; intros p; cbn [fold_left].
  - cbn [List.length]. lia.
  - rewrite IH. unfold process_text_command. cbn [fst snd].
    destruct (handle_transcription_appends now p text) as [-> _].
    rewrite length_app. cbn [List.length]. lia.
Qed.

(** X26.  The text path never records a failure: starting from a log of
    successful entries (or an empty one), after any session of direct
    text entry [get_statistics] counts every entry as successful,
    failed_entries = 0, whatever the handlers and plugins did with the
    commands (returned, raised, or were not found). *)
Theorem text_session_never_records_failure (p : VoicePipeline)
  (texts : list (Clock * string)) :
  forallb record_like (memory_data (memory p)) = true ->
  forallb logged_success (memory_data (memory p)) = true ->
  exists s,
    get_statistics (memory (run_texts p texts)) = Some s
    /\ total_entries s
       = List.length (memory_data (memory p)) + List.length texts
    /\ successful_entries s = total_entries s
    /\ failed_entries s = 0.
Proof.
  intros Hr Hs.
  destruct (text_session_keeps_successes texts p Hr Hs) as [Hr' Hs'].
  destruct (statistics_of_records _ Hr')
    as [n [ag [q [o [o' [Hn [_ [_ Hst]]]]]]]].
  rewrite (count_success_all _ Hs') in Hn. injection Hn as <-.
  unfold get_statistics. rewrite Hst. eexists. split; [reflexivity|].
  cbn [total_entries successful_entries failed_entries].
  split; [apply run_texts_length|]. split; [reflexivity|lia].
Qed.

Lemma text_session_never_records_failure_witness :
  exists s,
    get_statistics (memory (run_texts (idle_pipeline failing_registry)
                              sample_session)) = Some s
    /\ total_entries s = 0 + 3
    /\ successful_entries s = total_entries s
    /\ failed_entries s = 0.
Proof.
  apply (@text_session_never_records_failure
           (idle_pipeline failing_registry) sample_session);
    reflexivity.
Defined.

Lemma parse_command_not_blank_error (now text : string) :
  PyStr.strip text <> EmptyString ->
  error (parse_command now text) <> Some "Empty command".
Proof.
  unfold parse_command.
  destruct (PyStr.strip text) as [|ch rest]; [intros H; now elim H|].
  intros _. destruct (_identify_command_type (String ch rest)) as [ct ag].
  destruct (_extract_parameters (String ch rest)) as [parameters|e];
    cbn [error _create_error_command]; discriminate.
Qed.

Lemma text_command_keeps_no_blank (now : Clock) (p : VoicePipeline)
  (command : string) :
  PyStr.strip command <> EmptyString ->
  no_blank_dispatched p ->
  no_blank_dispatched (process_text_command now p command).
Proof.
  intros Hn Hp. unfold no_blank_dispatched, process_text_command.
  destruct (handle_transcription_appends now p command) as [_ [-> _]].
  apply Forall_app. split; [exact Hp|].
  constructor; [|constructor].
  now apply parse_command_not_blank_error.
Qed.

Lemma text_command_keeps_no_error (now : Clock) (p : VoicePipeline)
  (command : string) :
  PyStr.strip command <> EmptyString ->
  numbers_within_limit (PyStr.strip command) = true ->
  no_error_dispatched p ->
  no_error_dispatched (process_text_command now p command).
Proof.
  intros Hn Hfit Hp. unfold no_error_dispatched, process_text_command.
  destruct (handle_transcription_appends now p command) as [_ [-> _]].
  apply Forall_app. split; [exact Hp|].
  constructor; [|constructor].
  now apply (parse_command_nonblank (now_iso now) command).
Qed.



Lemma parse_command_strip (now text : string) :
  parse_command now (PyStr.strip text) = parse_command now text.
Proof.
  unfold parse_command. now rewrite strip_idem.
Qed.

(** X29.  The command entry of the main window: a blank entry does
    nothing (no line logged, pipeline untouched); any other entry is
    trimmed and handed to [process_text_command], which dispatches the
    parse of the entry.  Hence the error command of a blank text is never
    dispatched from the window; and no error command at all is, as long
    as no number of the entry is too long for [int]. *)
Theorem gui_execute_guards_blank (now : Clock) (p : VoicePipeline)
  (entry : string) :
  let r := MainWindow.execute_command now (Some p) entry in
  (PyStr.strip entry = EmptyString -> r = ([], Some p))
  /\ (PyStr.strip entry <> EmptyString ->
      exists p',
        snd r = Some p'
        /\ p' = process_text_command now p (PyStr.strip entry)
        /\ dispatched p'
           = dispatched p ++ [parse_command (now_iso now) entry])
  /\ (no_blank_dispatched p ->
      exists p', snd r = Some p' /\ no_blank_dispatched p')
  /\ (numbers_within_limit (PyStr.strip entry) = true ->
      no_error_dispatched p ->
      exists p', snd r = Some p' /\ no_error_dispatched p').
Proof.
  cbv zeta. unfold MainWindow.execute_command.
  destruct (PyStr.strip entry) as [|c t] eqn:Hs.
  - split; [reflexivity|]. split; [intros H; now elim H|].
    split; [intros Hp|intros _ Hp]; now exists p.
  - assert (Hn : PyStr.strip (String c t) <> EmptyString).
    { rewrite <- Hs, strip_idem, Hs. discriminate. }
    cbn [snd]. split; [discriminate|]. split; [|split].
    + intros _. eexists. split; [reflexivity|]. split; [reflexivity|].
      unfold process_text_command.
      destruct (handle_transcription_appends now p (String c t))
        as [_ [-> _]].
      rewrite <- Hs.
      now rewrite parse_command_strip.
    + intros Hp. eexists. split; [reflexivity|].
      now apply text_command_keeps_no_blank.
    + intros Hfit Hp. eexists. split; [reflexivity|].
      apply text_command_keeps_no_error; [exact Hn| |exact Hp].
      rewrite <- Hs, strip_idem, Hs. exact Hfit.
Qed.

Lemma gui_execute_guards_blank_witness :
  let p := idle_pipeline failing_registry in
  MainWindow.execute_command noon (Some p) "   " = ([], Some p)
  /\ (exists p',
        snd (MainWindow.execute_command noon (Some p) long_port_text)
        = Some p'
        /\ no_blank_dispatched p')
  /\ exists p',
       snd (MainWindow.execute_command noon (Some p) " port scan 10.0.0.1 ")
       = Some p'
       /\ no_error_dispatched p'.
Proof.
  split; [|split].
  - apply (proj1 (@gui_execute_guards_blank noon
                    (idle_pipeline failing_registry) "   ")).
    reflexivity.
  - apply (proj1 (proj2 (proj2 (@gui_execute_guards_blank noon
                                  (idle_pipeline failing_registry)
                                  long_port_text)))).
    constructor.
  - apply (proj2 (proj2 (proj2 (@gui_execute_guards_blank noon
                                  (idle_pipeline failing_registry)
                                  " port scan 10.0.0.1 ")))).
    + vm_compute. reflexivity.
    + constructor.
Defined.

(** X27.  The transcription path drops a blank transcription before
    parsing: the pipeline is left as it was, nothing dispatched and
    nothing logged.  Any other transcription is handled as
    [process_text_command] handles it.  Hence the error command of a
    blank text is never dispatched from this path; and no error command
    at all is, as long as no number of the transcription is too long for
    [int]. *)
Theorem process_audio_drops_blank (now : Clock) (p : VoicePipeline)
  (text : string) :
  (PyStr.strip text = EmptyString -> _process_audio now p text = p)
  /\ (PyStr.strip text <> EmptyString ->
      _process_audio now p text = process_text_command now p text)
  /\ (no_blank_dispatched p ->
      no_blank_dispatched (_process_audio now p text))
  /\ (numbers_within_limit (PyStr.strip text) = true ->
      no_error_dispatched p ->
      no_error_dispatched (_process_audio now p text)).
Proof.
  unfold _process_audio.
  destruct text as [|c t].
  { split; [reflexivity|]. split; [intros H; now elim H|].
    split; [intros Hp|intros _ Hp]; exact Hp. }
  destruct (PyStr.strip (String c t)) as [|c' t'] eqn:Hs.
  { split; [reflexivity|]. split; [intros H; now elim H|].
    split; [intros Hp|intros _ Hp]; exact Hp. }
  assert (Hn : PyStr.strip (String c t) <> EmptyString)
    by (rewrite Hs; discriminate).
  split; [discriminate|]. split; [reflexivity|]. split.
  - intros Hp. now apply (text_command_keeps_no_blank now (String c t) Hn).
  - intros Hfit Hp.
    apply (text_command_keeps_no_error now (String c t) Hn); [|exact Hp].
    rewrite Hs. exact Hfit.
Qed.

Lemma process_audio_drops_blank_witness :
  let p := idle_pipeline sample_registry in
  _process_audio noon p "   " = p
  /\ _process_audio noon p "port scan 10.0.0.1"
     = process_text_command noon p "port scan 10.0.0.1"
  /\ no_blank_dispatched (_process_audio noon p long_port_text)
  /\ no_error_dispatched (_process_audio noon p "port scan 10.0.0.1").
Proof.
  split; [|split; [|split]].
  - apply (proj1 (@process_audio_drops_blank noon
                    (idle_pipeline sample_registry) "   ")).
    reflexivity.
  - apply (proj1 (proj2 (@process_audio_drops_blank noon
                           (idle_pipeline sample_registry)
                           "port scan 10.0.0.1"))).
    vm_compute. discriminate.
  - apply (proj1 (proj2 (proj2 (@process_audio_drops_blank noon
                                  (idle_pipeline sample_registry)
                                  long_port_text)))).
    constructor.
  - apply (proj2 (proj2 (proj2 (@process_audio_drops_blank noon
                                  (idle_pipeline sample_registry)
                                  "port scan 10.0.0.1")))).
    + vm_compute. reflexivity.
    + constructor.
Defined.

End TextPathMore.

(** ** The watchdog's check of the audit log *)

Section WatchdogChecks.

(** X30.  The watchdog's check of the audit log at its two edges: on an
    empty log (a fresh one, or any log after [clear_memory]) it warns of
    a low success rate, 0, although nothing has failed; and when
    [get_statistics] falls back on the empty dictionary it warns of
    nothing, the defaults 0 and 100 passing both tests. *)
Theorem watchdog_warns_on_empty_log (m : MemoryEngine) :
  Watchdog._check_memory_usage (Some (clear_memory m))
  = [Watchdog.LowSuccessRate 0%float]
  /\ (get_statistics m = None ->
      Watchdog._check_memory_usage (Some m) = []).
Proof.
  split.
  - unfold Watchdog._check_memory_usage, get_statistics, clear_memory.
    rewrite save_memory_data. reflexivity.
  - intros H. unfold Watchdog._check_memory_usage. rewrite H. reflexivity.
Qed.

Lemma watchdog_warns_on_empty_log_witness :
  get_statistics damaged_log = None
  /\ Watchdog._check_memory_usage (Some damaged_log) = [].
Proof.
  split; [reflexivity|].
  apply (proj2 (watchdog_warns_on_empty_log damaged_log)). reflexivity.
Defined.

End WatchdogChecks.
